(** * EMIT orthorectification and masking: the notebook cells, embedded

    The arrays of the notebooks are nested lists, their elements IEEE 754
    values of the Standard Library's executable specification
    ([spec_float]); numpy's exceptions are an error result; the names a
    notebook cell rebinds or mutates are fields of a [notebook] record that
    each cell maps to the next one. *)

From Stdlib Require Import ZArith Bool Lia.
From Stdlib Require Import Floats.SpecFloat.
From Stdlib Require Import Ascii String.
From stdpp Require Import base option list.

Open Scope Z_scope.

(** ** numpy: element types and casts *)
Module Np.

Inductive dtype := Float32 | Float64.

Definition dtype_eqb (a b : dtype) : bool :=
  match a, b with
  | Float32, Float32 | Float64, Float64 => true
  | _, _ => false
  end.

Definition prec (d : dtype) : Z :=
  match d with Float32 => 24 | Float64 => 53 end.

Definition emax (d : dtype) : Z :=
  match d with Float32 => 128 | Float64 => 1024 end.

(** A value belongs to a dtype when its mantissa and exponent are the
    canonical ones of that format. *)
Definition is_valid (d : dtype) (v : spec_float) : bool :=
  valid_binary (prec d) (emax d) v.

(** Round to nearest even into [d]; zeros, infinities and NaN carry over. *)
Definition round_to (d : dtype) (v : spec_float) : spec_float :=
  match v with
  | S754_finite s m e => binary_round (prec d) (emax d) s m e
  | _ => v
  end.

(** [a.astype(dst)] for an element of an array of dtype [src]: a plain
    copy between equal dtypes, a rounding conversion otherwise. *)
Definition astype (src dst : dtype) (v : spec_float) : spec_float :=
  if dtype_eqb src dst then v else round_to dst v.

(** A Python or numpy integer converted to a float of dtype [d]. *)
Definition of_int (d : dtype) (z : Z) : spec_float :=
  binary_normalize (prec d) (emax d) z 0 false.

Definition add (d : dtype) : spec_float -> spec_float -> spec_float :=
  SFadd (prec d) (emax d).

Definition mul (d : dtype) : spec_float -> spec_float -> spec_float :=
  SFmul (prec d) (emax d).

Definition nan : spec_float := S754_nan.

Definition isnan (v : spec_float) : bool :=
  match v with S754_nan => true | _ => false end.

(** [v == 0] and [v > 0] of IEEE 754: both zeros are equal to 0, NaN is
    neither equal to nor greater than anything. *)
Definition eq_zero (v : spec_float) : bool :=
  match v with S754_zero _ => true | _ => false end.

Definition gt_zero (v : spec_float) : bool :=
  match v with
  | S754_infinity false | S754_finite false _ _ => true
  | _ => false
  end.

(** [a == b] of IEEE 754 between values of any two formats: the real
    numbers [m1 * 2^e1] and [m2 * 2^e2] are compared after both
    mantissas are brought to the smaller exponent. *)
Definition equal (a b : spec_float) : bool :=
  match a, b with
  | S754_zero _, S754_zero _ => true
  | S754_infinity s1, S754_infinity s2 => Bool.eqb s1 s2
  | S754_finite s1 m1 e1, S754_finite s2 m2 e2 =>
      Bool.eqb s1 s2 &&
      (Z.shiftl (Zpos m1) (e1 - Z.min e1 e2) =?
       Z.shiftl (Zpos m2) (e2 - Z.min e1 e2))
  | _, _ => false
  end.

(** The largest finite value of a dtype, what [nan_to_num] puts in the
    place of an infinity. *)
Definition max_float (d : dtype) : spec_float :=
  SFmax_float (prec d) (emax d).

Definition int64_min : Z := - 2 ^ 63.
Definition int64_max : Z := 2 ^ 63 - 1.

(** Two's complement wrap-around of 64-bit integer arithmetic. *)
Definition wrap64 (z : Z) : Z := (z + 2 ^ 63) mod 2 ^ 64 - 2 ^ 63.

(** [float -> int64] conversion: truncation toward zero; a value that
    does not fit gives the smallest integer, as the conversion
    instruction of the usual 64-bit processors does. *)
Definition trunc (v : spec_float) : Z :=
  match v with
  | S754_finite s m e => cond_Zopp s (Z.shiftl (Zpos m) e)
  | _ => 0
  end.

Definition astype_int (v : spec_float) : Z :=
  match v with
  | S754_zero _ => 0
  | S754_finite _ _ _ =>
      let t := trunc v in
      if (int64_min <=? t) && (t <=? int64_max) then t else int64_min
  | _ => int64_min
  end.

(** [np.nan_to_num(a, nan=nan_value)] on one element of dtype [d]. *)
Definition nan_to_num (d : dtype) (nan_value : Z) (v : spec_float) : spec_float :=
  match v with
  | S754_nan => of_int d nan_value
  | S754_infinity false => max_float d
  | S754_infinity true => SFopp (max_float d)
  | _ => v
  end.

End Np.

(** ** Exceptions *)
Inductive exn := IndexError | ValueError.

Inductive result (A : Type) : Type :=
| Ok (a : A)
| Raise (e : exn).
Arguments Ok {A} a.
Arguments Raise {A} e.

#[global] Instance result_ret : MRet result := fun _ a => Ok a.
#[global] Instance result_bind : MBind result := fun _ _ f m =>
  match m with
  | Ok a => f a
  | Raise e => Raise e
  end.

(** ** Arrays *)

(** Element [a[y, x]] of a two-dimensional array. *)
Definition at2 {A} (a : list (list A)) (y x : nat) : option A :=
  match a !! y with
  | Some r => r !! x
  | None => None
  end.

(** Element [a[i, j, k]] of a three-dimensional array. *)
Definition at3 {A} (a : list (list (list A))) (i j k : nat) : option A :=
  match at2 a i j with
  | Some p => p !! k
  | None => None
  end.

(** [a.shape] of a two-dimensional array. *)
Definition shape2 {A} (a : list (list A)) : nat * nat :=
  (length a, match a with r :: _ => length r | [] => 0%nat end).

(** Every row of a two-dimensional array has the array's width. *)
Definition rect2 {A} (a : list (list A)) : bool :=
  forallb (fun r => Nat.eqb (length r) (snd (shape2 a))) a.

(** A three-dimensional array of floats: element type, shape and data
    [downtrack, crosstrack, band]. *)
Record ndarray3 := Ndarray3 {
  dtype : Np.dtype;
  dim0 : nat;
  dim1 : nat;
  dim2 : nat;
  data : list (list (list spec_float))
}.

(** The data agree with the declared shape and element type. *)
Definition wf_ndarray3 (a : ndarray3) : bool :=
  Nat.eqb (length (data a)) (dim0 a) &&
  forallb (fun r =>
    Nat.eqb (length r) (dim1 a) &&
    forallb (fun p =>
      Nat.eqb (length p) (dim2 a) && forallb (Np.is_valid (dtype a)) p) r)
    (data a).

(** A Python index into an axis of [n] elements: negative indices count
    from the end, anything else out of range raises. *)
Definition norm_index (n : nat) (i : Z) : result nat :=
  if (0 <=? i) && (i <? Z.of_nat n) then Ok (Z.to_nat i)
  else if (- Z.of_nat n <=? i) && (i <? 0) then Ok (Z.to_nat (i + Z.of_nat n))
  else Raise IndexError.

(** [a[iy, ix, :]] *)
Definition take_row (a : ndarray3) (iy ix : Z) : result (list spec_float) :=
  y ← norm_index (dim0 a) iy;
  x ← norm_index (dim1 a) ix;
  match at2 (data a) y x with
  | Some v => Ok v
  | None => Raise IndexError
  end.

(** [a[ys, xs, :]] with two index vectors of equal length: row [k] of the
    result is [a[ys[k], xs[k], :]]. *)
Definition fancy_index (a : ndarray3) (ys xs : list Z)
  : result (list (list spec_float)) :=
  mapM (fun p : Z * Z => take_row a p.1 p.2) (zip ys xs).

(** [a[mask]] on one row and on the whole array, in row-major order. *)
Fixpoint select_row {A} (mask : list bool) (row : list A) : list A :=
  match mask, row with
  | m :: mask', v :: row' =>
      if m then v :: select_row mask' row' else select_row mask' row'
  | _, _ => []
  end.

Fixpoint select_masked {A} (mask : list (list bool)) (a : list (list A)) : list A :=
  match mask, a with
  | m :: mask', r :: a' => select_row m r ++ select_masked mask' a'
  | _, _ => []
  end.

(** [dst[mask] = src] on one row: the cells where the mask holds take the
    next values of [src] in order; what is left of [src] is returned for
    the rows below. numpy refuses a [src] with fewer values than the mask
    has true cells; the remap cell gathers exactly one row per true cell,
    so the branch for an exhausted [src] is never taken there. *)
Fixpoint assign_row {A} (mask : list bool) (dst : list A) (src : list A)
  : list A * list A :=
  match mask, dst with
  | m :: mask', d :: dst' =>
      if m then
        match src with
        | s :: src' =>
            let '(r, rest) := assign_row mask' dst' src' in (s :: r, rest)
        | [] => (dst, [])
        end
      else
        let '(r, rest) := assign_row mask' dst' src in (d :: r, rest)
  | _, _ => (dst, src)
  end.

Fixpoint assign_masked {A} (mask : list (list bool)) (dst : list (list A))
  (src : list A) : list (list A) :=
  match mask, dst with
  | m :: mask', d :: dst' =>
      let '(r, rest) := assign_row m d src in
      r :: assign_masked mask' dst' rest
  | _, _ => dst
  end.

(** ** How_to_Orthorectify.ipynb, section 2 *)

(** The names the cells of the walkthrough bind. [glt_x] and [glt_y] are
    the arrays of the [location] group, [ds_array] is the reflectance
    cube, [out_ds] is unbound until the remap cell has run. *)
Record notebook := Notebook {
  glt_x : list (list spec_float);
  glt_y : list (list spec_float);
  glt_array : list (list (Z * Z));
  ds_array : ndarray3;
  out_ds : option ndarray3
}.

Definition GLT_NODATA_VALUE : Z := 0.

Definition fill_value : Z := -9999.

(** [np.stack([a, b], axis=-1)]: the two arrays must have one shape. *)
Definition stack_last {A} (a b : list (list A)) : result (list (list (A * A))) :=
  if bool_decide (length <$> a = length <$> b)
  then Ok (zip_with zip a b)
  else Raise ValueError.

(** The cell
    [glt_array = np.nan_to_num(np.stack([glt_x, glt_y], axis=-1),
                               nan=GLT_NODATA_VALUE).astype(int)]:
    a fresh array, each pair holding (x, y). The arrays of the location
    group are 64-bit floats once the reader has masked their fill value. *)
Definition glt_entry (p : spec_float * spec_float) : Z * Z :=
  (Np.astype_int (Np.nan_to_num Np.Float64 GLT_NODATA_VALUE p.1),
   Np.astype_int (Np.nan_to_num Np.Float64 GLT_NODATA_VALUE p.2)).

Definition build_glt_array (gx gy : list (list spec_float))
  : result (list (list (Z * Z))) :=
  stacked ← stack_last gx gy;
  mret (map (map glt_entry) stacked).

Definition glt_cell (nb : notebook) : notebook * option exn :=
  match build_glt_array (glt_x nb) (glt_y nb) with
  | Ok g => (Notebook (glt_x nb) (glt_y nb) g (ds_array nb) (out_ds nb), None)
  | Raise e => (nb, Some e)
  end.

(** [np.all(glt_array != GLT_NODATA_VALUE, axis=-1)] *)
Definition valid_pair (p : Z * Z) : bool :=
  negb (p.1 =? GLT_NODATA_VALUE) && negb (p.2 =? GLT_NODATA_VALUE).

Definition valid_glt (g : list (list (Z * Z))) : list (list bool) :=
  map (map valid_pair) g.

(** [glt_array[valid_glt] -= 1], in place on 64-bit integers. *)
Definition decrement_pair (p : Z * Z) : Z * Z :=
  (Np.wrap64 (p.1 - 1), Np.wrap64 (p.2 - 1)).

Definition isub_masked (g : list (list (Z * Z))) (mask : list (list bool))
  : list (list (Z * Z)) :=
  zip_with (zip_with (fun p (m : bool) => if m then decrement_pair p else p)) g mask.

(** [np.zeros((n0, n1, n2), dtype=np.float32) + fill_value]: the Python
    integer is converted to the array's element type first. *)
Definition filled_cell (n2 : nat) : list spec_float :=
  replicate n2
    (Np.add Np.Float32 (S754_zero false) (Np.of_int Np.Float32 fill_value)).

Definition zeros_plus_fill (n0 n1 n2 : nat) : ndarray3 :=
  Ndarray3 Np.Float32 n0 n1 n2 (replicate n0 (replicate n1 (filled_cell n2))).

(** [out[mask, :] = rows]: the rows are converted to the element type of
    [out] as they are stored. *)
Definition setitem_masked (out : ndarray3) (mask : list (list bool))
  (src : Np.dtype) (rows : list (list spec_float)) : ndarray3 :=
  Ndarray3 (dtype out) (dim0 out) (dim1 out) (dim2 out)
    (assign_masked mask (data out)
       (map (map (Np.astype src (dtype out))) rows)).

(** The remap cell:
    [out_ds = np.zeros(...) + fill_value;
     valid_glt = np.all(glt_array != GLT_NODATA_VALUE, axis=-1);
     glt_array[valid_glt] -= 1;
     out_ds[valid_glt, :] = ds_array[glt_array[valid_glt, 1],
                                     glt_array[valid_glt, 0], :]].
    When the gather raises, [out_ds] is already bound to the filled array
    and [glt_array] is already decremented. *)
Definition remap_cell (nb : notebook) : notebook * option exn :=
  let ds := ds_array nb in
  let '(n0, n1) := shape2 (glt_array nb) in
  let out0 := zeros_plus_fill n0 n1 (dim2 ds) in
  let valid := valid_glt (glt_array nb) in
  let g := isub_masked (glt_array nb) valid in
  let sel := select_masked valid g in
  match fancy_index ds (map snd sel) (map fst sel) with
  | Ok rows =>
      (Notebook (glt_x nb) (glt_y nb) g ds
         (Some (setitem_masked out0 valid (dtype ds) rows)), None)
  | Raise e =>
      (Notebook (glt_x nb) (glt_y nb) g ds (Some out0), Some e)
  end.

(** [GT = ds.geotransform], six 64-bit floats; [GT[i]]. *)
Definition getitem (GT : list spec_float) (i : nat) : result spec_float :=
  match GT !! i with
  | Some v => Ok v
  | None => Raise IndexError
  end.

(** [a[i] = v] on a one-dimensional array. *)
Definition setitem (a : list spec_float) (i : nat) (v : spec_float)
  : result (list spec_float) :=
  if bool_decide (i < length a)%nat then Ok (<[i := v]> a) else Raise IndexError.

Definition half : spec_float := S754_finite false 4503599627370496 (-53).

(** The body of either loop:
    [geo = (GT[o] + 0.5*GT[w]) + i * GT[w]; arr[i] = geo]. *)
Definition geo_step (GT : list spec_float) (o w : nat)
  (arr : list spec_float) (i : nat) : result (list spec_float) :=
  g_o ← getitem GT o;
  g_w ← getitem GT w;
  g_w' ← getitem GT w;
  setitem arr i
    (Np.add Np.Float64
       (Np.add Np.Float64 g_o (Np.mul Np.Float64 half g_w))
       (Np.mul Np.Float64 (Np.of_int Np.Float64 (Z.of_nat i)) g_w')).

(** [for i in np.arange(n): body] *)
Fixpoint for_range (body : list spec_float -> nat -> result (list spec_float))
  (arr : list spec_float) (start n : nat) : result (list spec_float) :=
  match n with
  | O => Ok arr
  | S n' => arr' ← body arr start; for_range body arr' (S start) n'
  end.

(** The coordinate cells: [dim_x = glt_x.shape[1]; dim_y = glt_x.shape[0];
    lon = np.zeros(dim_x); lat = np.zeros(dim_y)] and the two loops.
    The result is [(lat, lon)]. *)
Definition coords_cell (GT : list spec_float) (gx : list (list spec_float))
  : result (list spec_float * list spec_float) :=
  let dim_x := (shape2 gx).2 in
  let dim_y := (shape2 gx).1 in
  let lon0 := replicate dim_x (S754_zero false) in
  let lat0 := replicate dim_y (S754_zero false) in
  lon ← for_range (geo_step GT 0 1) lon0 0 dim_x;
  lat ← for_range (geo_step GT 3 5) lat0 0 dim_y;
  mret (lat, lon).

(** ** The reflectance walkthrough: masking the bad wavelengths *)

(** [ds['reflectance'].data[:, :, ds['good_wavelengths'].data == 0] = np.nan]:
    an update in place, given here as the array after it; the boolean index
    must be as long as the band axis. *)
Definition mask_band (good v : spec_float) : spec_float :=
  if Np.eq_zero good then Np.nan else v.

Definition mask_good_wavelengths (a : ndarray3) (good : list spec_float)
  : result ndarray3 :=
  if bool_decide (length good = dim2 a)
  then Ok (Ndarray3 (dtype a) (dim0 a) (dim1 a) (dim2 a)
             (map (map (fun p => zip_with mask_band good p)) (data a)))
  else Raise IndexError.

(** ** The quality mask of [emit_tools] *)

(** Modelled from the spec: [emit_tools.quality_mask] is called by
    How_to_use_EMIT_Quality_data.ipynb but the module is not part of the
    sources. The spec's words: given the selected flag-layer indices and
    the per-layer arrays [D, C], the mask is the logical OR of the
    selected layers exceeding the threshold [> 0]. The layers are given
    as the list of two-dimensional arrays, the mask has the shape of
    the first layer. *)
Definition flagged (layer : list (list spec_float)) (d c : nat) : bool :=
  match at2 layer d c with
  | Some v => Np.gt_zero v
  | None => false
  end.

Definition selected_flagged (layers : list (list (list spec_float)))
  (d c : nat) (i : nat) : bool :=
  match layers !! i with
  | Some layer => flagged layer d c
  | None => false
  end.

Definition quality_mask (layers : list (list (list spec_float)))
  (flags : list nat) : list (list bool) :=
  match layers with
  | [] => []
  | l0 :: _ =>
      imap (fun d row =>
              imap (fun c _ => existsb (selected_flagged layers d c) flags) row) l0
  end.

(** The spec's formula for a pixel centre,
    [origin + 0.5*pixel_size + i*pixel_size], in 64-bit floats and read
    from left to right as Python does. *)
Definition pixel_center (origin size : spec_float) (i : nat) : spec_float :=
  Np.add Np.Float64
    (Np.add Np.Float64 origin (Np.mul Np.Float64 half size))
    (Np.mul Np.Float64 (Np.of_int Np.Float64 (Z.of_nat i)) size).

(** An index numpy refuses on an axis of [n] elements. *)
Definition out_of_range (n : nat) (i : Z) : Prop :=
  i < - Z.of_nat n \/ Z.of_nat n <= i.

(** ** Concrete arrays *)
Module Sample.

(** A float32 cube of shape (4, 3, 2) holding [100*d + 10*c + b]. *)
Definition cube32 : ndarray3 :=
  Ndarray3 Np.Float32 4 3 2
    (map (fun d => map (fun c => map (fun b =>
            Np.of_int Np.Float32 (100 * d + 10 * c + b)) [0; 1]) [0; 1; 2])
         [0; 1; 2; 3]).

(** The table of shape (2, 2) with pairs (x, y), 1-based, 0 = no data. *)
Definition glt22 : list (list (Z * Z)) :=
  [[(0, 0); (2, 1)]; [(1, 2); (0, 0)]].

Definition nb22 : notebook := Notebook [] [] glt22 cube32 None.

(** 0.1 as a 64-bit and as a 32-bit float. *)
Definition tenth64 : spec_float := S754_finite false 7205759403792794 (-56).
Definition tenth32 : spec_float := S754_finite false 13421773 (-27).

(** A float64 cube of shape (1, 1, 1) holding 0.1. *)
Definition cube64 : ndarray3 := Ndarray3 Np.Float64 1 1 1 [[[tenth64]]].

Definition nb64 : notebook := Notebook [] [] [[(1, 1)]] cube64 None.

(** A table whose only pair points one column before the first. *)
Definition nb_wrap : notebook := Notebook [] [] [[(-1, 1)]] cube32 None.

(** A table whose only pair has an x beyond the cube and no y. *)
Definition nb_half : notebook := Notebook [] [] [[(7, 0)]] cube32 None.

(** A table whose only pair has an x beyond the cube and a good y. *)
Definition nb_far : notebook := Notebook [] [] [[(7, 1)]] cube32 None.

Definition f64 (z : Z) : spec_float := Np.of_int Np.Float64 z.

(** 0.01 and 0.5 as 64-bit floats. *)
Definition hundredth64 : spec_float := S754_finite false 5764607523034235 (-59).
Definition half64 : spec_float := S754_finite false 4503599627370496 (-53).

(** North-up geotransform: origin (-62, -39), pixels of 0.5 by -0.5. *)
Definition GT_north : list spec_float :=
  [f64 (-62); half64; f64 0; f64 (-39); f64 0; SFopp half64].

(** The same with a row rotation of 0.01. *)
Definition GT_rot : list spec_float :=
  [f64 (-62); half64; hundredth64; f64 (-39); f64 0; SFopp half64].

(** A [glt_x] of shape (2, 3). *)
Definition glt_x23 : list (list spec_float) :=
  [[f64 0; f64 1; f64 2]; [f64 0; f64 1; f64 0]].

(** [glt_x], [glt_y] of shape (1, 2) with a NaN in the first cell of
    [glt_x], and the notebook that holds them. *)
Definition nb_nan : notebook :=
  Notebook [[S754_nan; f64 2]] [[f64 1; f64 1]] [] cube32 None.

(** Three flag layers of shape (1, 2): the first pixel is flagged in
    layer 0 only, the second in layer 2 only. *)
Definition layers3 : list (list (list spec_float)) :=
  [[[f64 1; f64 0]]; [[f64 0; f64 0]]; [[f64 0; f64 1]]].

(** [good_wavelengths = [1, 0, 1]] and a one-pixel, three-band cube. *)
Definition good101 : list spec_float := [f64 1; f64 0; f64 1].
Definition cube3 : ndarray3 :=
  Ndarray3 Np.Float32 1 1 3
    [[[Np.of_int Np.Float32 5; Np.of_int Np.Float32 6; Np.of_int Np.Float32 7]]].

End Sample.

(** ** The other cells of the notebooks *)

(** The data of an array agree with its declared shape. *)
Definition has_shape3 (a : ndarray3) : bool :=
  Nat.eqb (length (data a)) (dim0 a) &&
  forallb (fun r =>
    Nat.eqb (length r) (dim1 a) &&
    forallb (fun p => Nat.eqb (length p) (dim2 a)) r)
    (data a).

(** The position a Python index in range stands for on an axis of [n]
    elements. *)
Definition py_position (n : nat) (i : Z) : nat :=
  Z.to_nat (if i <? 0 then i + Z.of_nat n else i).

(** The notebook with another cube bound to [ds_array]. *)
Definition with_ds_array (nb : notebook) (ds : ndarray3) : notebook :=
  Notebook (glt_x nb) (glt_y nb) (glt_array nb) ds (out_ds nb).

(** The last cell of How_to_Orthorectify.ipynb,
    [out_xr['reflectance'].data[out_xr['reflectance'].data == fill_value] = np.nan]:
    the dataset wraps [out_ds] without copying it, so this is an update of
    [out_ds] in place, given here as the array after it. The Python
    integer is compared in the array's element type. *)
Definition blank_fill (a : ndarray3) (v : spec_float) : spec_float :=
  if Np.equal v (Np.of_int (dtype a) fill_value) then Np.nan else v.

Definition fill_to_nan (a : ndarray3) : ndarray3 :=
  Ndarray3 (dtype a) (dim0 a) (dim1 a) (dim2 a)
    (map (map (map (blank_fill a))) (data a)).

(** The download cells: [granule_asset_id = url.split('/')[-1]] and
    [fp = f'../../data/{granule_asset_id}']. *)
Fixpoint split_on (sep : ascii) (s : string) : list string :=
  match s with
  | EmptyString => [EmptyString]
  | String c s' =>
      if Ascii.eqb c sep then EmptyString :: split_on sep s'
      else match split_on sep s' with
           | h :: t => String c h :: t
           | [] => [String c EmptyString]
           end
  end.

Definition slash : ascii := "/"%char.

Definition granule_asset_id (url : string) : result string :=
  let parts := split_on slash url in
  i ← norm_index (length parts) (-1);
  match parts !! i with
  | Some part => Ok part
  | None => Raise IndexError
  end.

Definition local_path (url : string) : result string :=
  asset ← granule_asset_id url;
  mret (String.append "../../data/" asset).

(** [sep.join(parts)] *)
Fixpoint join_on (sep : ascii) (parts : list string) : string :=
  match parts with
  | [] => EmptyString
  | p :: rest =>
      match rest with
      | [] => p
      | _ :: _ => String.append p (String sep (join_on sep rest))
      end
  end.

(** [c in s] *)
Fixpoint has_char (c : ascii) (s : string) : bool :=
  match s with
  | EmptyString => false
  | String c' s' => Ascii.eqb c' c || has_char c s'
  end.

(** The band selection of How_to_use_EMIT_Quality_data.ipynb,
    [np.nanargmin(abs(ds['wavelengths'].values - x))] for a Python integer
    [x]: the subtraction is done in the element type of the array. *)
Definition distance (d : Np.dtype) (x : Z) (w : spec_float) : spec_float :=
  SFabs (SFsub (Np.prec d) (Np.emax d) w (Np.of_int d x)).

(** Neither NaN nor an infinity. *)
Definition is_finite (v : spec_float) : bool :=
  match v with
  | S754_zero _ | S754_finite _ _ _ => true
  | _ => false
  end.

(** The place of a float that is not NaN in the order of IEEE 754
    comparison, as a triple ordered lexicographically: sign class, then
    exponent, then mantissa (both negated for negative numbers). *)
Definition order_key (v : spec_float) : Z * Z * Z :=
  match v with
  | S754_infinity true => (-2, 0, 0)
  | S754_finite true m e => (-1, - e, - Zpos m)
  | S754_zero _ | S754_nan => (0, 0, 0)
  | S754_finite false m e => (1, e, Zpos m)
  | S754_infinity false => (2, 0, 0)
  end.

Definition key_lt (a b : Z * Z * Z) : Prop :=
  a.1.1 < b.1.1 \/
  (a.1.1 = b.1.1 /\ (a.1.2 < b.1.2 \/ (a.1.2 = b.1.2 /\ a.2 < b.2))).

(** [np.argmin]: the first index of the smallest element. *)
Fixpoint argmin_from (best_i : nat) (best : spec_float) (i : nat)
  (a : list spec_float) : nat :=
  match a with
  | [] => best_i
  | v :: a' =>
      if SFltb v best then argmin_from i v (S i) a'
      else argmin_from best_i best (S i) a'
  end.

Definition argmin (a : list spec_float) : result nat :=
  match a with
  | [] => Raise ValueError
  | v :: a' => Ok (argmin_from 0 v 1 a')
  end.

(** [np.nanargmin]: NaN counts as +infinity; an array with nothing but
    NaN, or with nothing at all, is refused. *)
Definition nan_to_inf (v : spec_float) : spec_float :=
  if Np.isnan v then S754_infinity false else v.

Definition nanargmin (a : list spec_float) : result nat :=
  if forallb Np.isnan a then Raise ValueError
  else argmin (map nan_to_inf a).

Definition nearest_band (d : Np.dtype) (wavelengths : list spec_float) (x : Z)
  : result nat :=
  nanargmin (map (distance d x) wavelengths).

(** [rgb_inds = np.array([... for x in [650, 560, 470]])] *)
Definition rgb_inds (d : Np.dtype) (wavelengths : list spec_float)
  : result (list nat) :=
  mapM (nearest_band d wavelengths) [650; 560; 470].

(** ** More concrete arrays *)
Module Sample2.

(** A table of shape (1, 3) whose first and last pairs are the same. *)
Definition nb_alias : notebook :=
  Notebook [] [] [[(2, 1); (1, 1); (2, 1)]] Sample.cube32 None.

(** [glt_x], [glt_y] of shape (2, 2) holding the integers of [Sample.glt22]. *)
Definition nb_loc : notebook :=
  Notebook [[Sample.f64 0; Sample.f64 2]; [Sample.f64 1; Sample.f64 0]]
           [[Sample.f64 0; Sample.f64 1]; [Sample.f64 2; Sample.f64 0]]
           [] Sample.cube32 None.

(** The cube of [Sample.cube32] with -9999 in place of RawCube[0, 1, 1]. *)
Definition cube_fill : ndarray3 :=
  Ndarray3 Np.Float32 4 3 2
    (map (fun d => map (fun c => map (fun b =>
            if (d =? 0) && (c =? 1) && (b =? 1)
            then Np.of_int Np.Float32 fill_value
            else Np.of_int Np.Float32 (100 * d + 10 * c + b)) [0; 1]) [0; 1; 2])
         [0; 1; 2; 3]).

Definition nb_fill : notebook := Notebook [] [] Sample.glt22 cube_fill None.

(** [good_wavelengths = [1, 0]] for the two bands of [Sample.cube32]. *)
Definition good10 : list spec_float := [Sample.f64 1; Sample.f64 0].

(** Five float32 wavelengths, one of them missing. *)
Definition wavelengths5 : list spec_float :=
  [Np.of_int Np.Float32 381; S754_nan; Np.of_int Np.Float32 560;
   Np.of_int Np.Float32 640; Np.of_int Np.Float32 660].

Definition url : string :=
  "https://data.lpdaac.earthdatacloud.nasa.gov/lp-prod-protected/EMITL2ARFL.001/EMIT_L2A_RFL_001_20220903T163129_2224611_012/EMIT_L2A_RFL_001_20220903T163129_2224611_012.nc".

End Sample2.

(** * Properties *)

(** ** Results of [mapM] in the error monad *)
Section mapM_result.
Context {A B : Type} (f : A -> result B).

Lemma mapM_Ok_Forall2 (l : list A) (rs : list B) :
  mapM f l = Ok rs -> Forall2 (fun a r => f a = Ok r) l rs.
Proof.
  revert rs. induction l as [|a l IH]; intros rs H; cbn in H.
  - injection H as <-. constructor.
  - destruct (f a) as [b|e] eqn:Ha; cbn in H; [|discriminate].
    destruct (mapM f l) as [k|e] eqn:Hk; cbn in H; [|discriminate].
    injection H as <-. constructor; [exact Ha | now apply IH].
Qed.

(** When every failure of [f] is the same exception, one failing
    element makes the whole gather raise it. *)
Lemma mapM_Raise (E : exn) (l : list A) (a : A) :
  (forall a' e, f a' = Raise e -> e = E) ->
  a ∈ l -> f a = Raise E -> mapM f l = Raise E.
Proof.
  intros Hone Hin Ha. induction l as [|a0 l IH]; [inversion Hin|].
  cbn. destruct (f a0) as [b|e] eqn:H0; cbn.
  - assert (a ∈ l) as Hl.
    { apply elem_of_cons in Hin as [->|Hl]; [congruence | exact Hl]. }
    rewrite (IH Hl). reflexivity.
  - f_equal. eapply Hone, H0.
Qed.
End mapM_result.

(** ** Boolean-mask selection and assignment line up cell by cell *)
Section masked.
Context {I A : Type} (R : I -> A -> Prop).

Lemma assign_row_spec (mask : list bool) :
  forall (items : list I) (dst pre rest : list A),
    length items = length mask ->
    length dst = length mask ->
    Forall2 R (select_row mask items) pre ->
    exists res,
      assign_row mask dst (pre ++ rest) = (res, rest) /\
      length res = length mask /\
      forall x,
        (mask !! x = Some false -> res !! x = dst !! x) /\
        (mask !! x = Some true ->
         forall it, items !! x = Some it ->
                    exists v, res !! x = Some v /\ R it v).
Proof.
  induction mask as [|m mask IH]; intros items dst pre rest Hi Hd HR.
  - destruct dst; [|discriminate]. destruct items; [|discriminate].
    cbn in HR. inversion HR; subst. exists []. cbn.
    repeat split; intros; discriminate.
  - destruct dst as [|d dst]; [discriminate|].
    destruct items as [|it0 items]; [discriminate|].
    cbn in Hi, Hd. injection Hi as Hi. injection Hd as Hd.
    destruct m; cbn in HR.
    + inversion HR as [|? v ? pre' Hv HR']; subst.
      destruct (IH items dst pre' rest Hi Hd HR') as (res & Hres & Hlen & Hx).
      exists (v :: res). cbn. rewrite Hres. repeat split.
      * cbn. now rewrite Hlen.
      * destruct x as [|x]; cbn; [discriminate | apply Hx].
      * destruct x as [|x]; cbn.
        -- intros _ it [= <-]. eauto.
        -- apply Hx.
    + destruct (IH items dst pre rest Hi Hd HR) as (res & Hres & Hlen & Hx).
      exists (d :: res). cbn. rewrite Hres. repeat split.
      * cbn. now rewrite Hlen.
      * destruct x as [|x]; cbn; [reflexivity | apply Hx].
      * destruct x as [|x]; cbn; [discriminate | apply Hx].
Qed.

Lemma assign_masked_spec (mask : list (list bool)) :
  forall (items : list (list I)) (dst : list (list A)) (src : list A),
    Forall2 (fun m it => length it = length m) mask items ->
    Forall2 (fun m d => length d = length m) mask dst ->
    Forall2 R (select_masked mask items) src ->
    forall y x,
      (at2 mask y x = Some false ->
       at2 (assign_masked mask dst src) y x = at2 dst y x) /\
      (at2 mask y x = Some true ->
       forall it, at2 items y x = Some it ->
                  exists v, at2 (assign_masked mask dst src) y x = Some v /\ R it v).
Proof.
  induction mask as [|m mask IH]; intros items dst src Hi Hd HR y x.
  - split; intros H; discriminate.
  - inversion Hi as [|? it0 ? items' Hi0 Hi']; subst.
    inversion Hd as [|? d0 ? dst' Hd0 Hd']; subst.
    cbn in HR. apply Forall2_app_inv_l in HR as (pre & rest & Hpre & Hrest & ->).
    destruct (assign_row_spec m it0 d0 pre rest Hi0 Hd0 Hpre)
      as (res & Hres & _ & Hx).
    cbn. rewrite Hres. destruct y as [|y].
    + unfold at2. cbn. apply Hx.
    + apply (IH items' dst' rest Hi' Hd' Hrest y x).
Qed.
End masked.

(** ** Shapes of the arrays the remap cell builds *)
Lemma rect2_Forall {A} (a : list (list A)) :
  rect2 a = true -> Forall (fun r => length r = (shape2 a).2) a.
Proof.
  unfold rect2. intros H. apply Forall_forall. intros r Hr.
  rewrite forallb_forall in H. apply Nat.eqb_eq, H.
  now apply list_elem_of_In.
Qed.

Lemma isub_masked_shape (g : list (list (Z * Z))) :
  Forall2 (fun m (r : list (Z * Z)) => length r = length m)
          (valid_glt g) (isub_masked g (valid_glt g)).
Proof.
  unfold valid_glt, isub_masked. induction g as [|r g IH]; cbn; constructor; [|exact IH].
  rewrite length_zip_with, !length_map. lia.
Qed.

Lemma zeros_shape (g : list (list (Z * Z))) (n2 : nat) :
  rect2 g = true ->
  Forall2 (fun m (d : list (list spec_float)) => length d = length m)
          (valid_glt g)
          (replicate (shape2 g).1 (replicate (shape2 g).2 (filled_cell n2))).
Proof.
  intros H. apply rect2_Forall in H. revert H.
  generalize (shape2 g).2 as n1. intros n1 H. cbn [shape2 fst].
  unfold valid_glt. induction H as [|r g Hr _ IH]; cbn; constructor; [|exact IH].
  now rewrite length_replicate, length_map.
Qed.

(** Cell [(y, x)] of the mask and of the decremented table, from the cell
    of the table. *)
Lemma at2_map {A B} (f : A -> B) (a : list (list A)) y x :
  at2 (map (map f) a) y x = f <$> at2 a y x.
Proof.
  unfold at2. rewrite list_lookup_fmap. destruct (a !! y) as [r|]; cbn; [|reflexivity].
  apply list_lookup_fmap.
Qed.

Lemma at2_isub_masked (g : list (list (Z * Z))) y x p :
  at2 g y x = Some p ->
  at2 (isub_masked g (valid_glt g)) y x
  = Some (if valid_pair p then decrement_pair p else p).
Proof.
  unfold at2, isub_masked, valid_glt. intros H.
  destruct (g !! y) as [r|] eqn:Hy; [|discriminate].
  rewrite lookup_zip_with, Hy. cbn. rewrite list_lookup_fmap, Hy. cbn.
  rewrite lookup_zip_with, H. cbn. rewrite list_lookup_fmap, H. reflexivity.
Qed.

Lemma at2_replicate {A B} (n0 n1 : nat) (v : A) (a : list (list B)) y x (w : B) :
  length a = n0 -> Forall (fun r => length r = n1) a ->
  at2 a y x = Some w ->
  at2 (replicate n0 (replicate n1 v)) y x = Some v.
Proof.
  intros Hn0 Hn1 H. unfold at2 in *.
  destruct (a !! y) as [r|] eqn:Hy; [|discriminate].
  assert (y < n0)%nat by (subst n0; eapply lookup_lt_Some, Hy).
  rewrite lookup_replicate_2 by assumption.
  apply lookup_replicate_2.
  rewrite Forall_forall in Hn1. rewrite <- (Hn1 r).
  - eapply lookup_lt_Some, H.
  - eapply list_elem_of_lookup_2, Hy.
Qed.

(** ** Rounding a value into its own format changes nothing *)
Lemma round_to_valid (d : Np.dtype) (v : spec_float) :
  Np.is_valid d v = true -> Np.round_to d v = v.
Proof.
  destruct v as [s|s| |s m e]; try reflexivity.
  unfold Np.is_valid, Np.round_to, valid_binary, bounded, canonical_mantissa.
  generalize (Np.prec d) (Np.emax d). intros p em H.
  apply andb_prop in H as [Hc Hb]. apply Z.eqb_eq in Hc.
  unfold binary_round, shl_align. rewrite Hc, Z.sub_diag.
  unfold binary_round_aux, shr_fexp. cbn [Zdigits2].
  rewrite Hc, Z.sub_diag. cbn. rewrite Hc, Z.sub_diag. cbn.
  now rewrite Hb.
Qed.

(** The fill value, once in the output's element type. *)
Lemma filled_cell_value (n2 b : nat) :
  (b < n2)%nat ->
  filled_cell n2 !! b = Some (Np.of_int Np.Float32 fill_value).
Proof. intros H. unfold filled_cell. now rewrite lookup_replicate_2. Qed.

(** ** The remap cell, cell by cell *)

Lemma zip_snd_fst {A B} (l : list (A * B)) :
  zip (map snd l) (map fst l) = map (fun q => (q.2, q.1)) l.
Proof. induction l as [|[a b] l IH]; cbn; [reflexivity | now rewrite IH]. Qed.

Lemma remap_cell_raise (nb nb' : notebook) (e : exn) :
  remap_cell nb = (nb', Some e) ->
  let g := glt_array nb in
  nb' = Notebook (glt_x nb) (glt_y nb) (isub_masked g (valid_glt g)) (ds_array nb)
          (Some (zeros_plus_fill (shape2 g).1 (shape2 g).2 (dim2 (ds_array nb)))).
Proof.
  unfold remap_cell. cbn.
  destruct (fancy_index _ _ _); intros [= <- ?]. reflexivity.
Qed.

Lemma remap_cell_ok (nb nb' : notebook) :
  remap_cell nb = (nb', None) ->
  let g := glt_array nb in
  let ds := ds_array nb in
  exists rows,
    Forall2 (fun (q : Z * Z) r => take_row ds q.2 q.1 = Ok r)
            (select_masked (valid_glt g) (isub_masked g (valid_glt g))) rows /\
    nb' = Notebook (glt_x nb) (glt_y nb) (isub_masked g (valid_glt g)) ds
            (Some (setitem_masked
                     (zeros_plus_fill (shape2 g).1 (shape2 g).2 (dim2 ds))
                     (valid_glt g) (dtype ds) rows)).
Proof.
  unfold remap_cell. cbn.
  destruct (fancy_index _ _ _) as [rows|] eqn:Hrows; intros [= <-].
  exists rows. split; [|reflexivity].
  unfold fancy_index in Hrows. rewrite zip_snd_fst in Hrows.
  apply mapM_Ok_Forall2 in Hrows.
  now apply Forall2_fmap_l in Hrows.
Qed.

(** What the output holds at a cell of the table after a run that did not
    raise: the fill vector when a coordinate is the no-data value, else the
    gathered row converted to the output's element type. *)
Lemma remap_cell_at (nb nb' : notebook) (y x : nat) (p : Z * Z) :
  remap_cell nb = (nb', None) ->
  rect2 (glt_array nb) = true ->
  at2 (glt_array nb) y x = Some p ->
  exists out,
    out_ds nb' = Some out /\ dtype out = Np.Float32 /\
    if valid_pair p
    then exists row,
        take_row (ds_array nb) (Np.wrap64 (p.2 - 1)) (Np.wrap64 (p.1 - 1)) = Ok row /\
        at2 (data out) y x
        = Some (map (Np.astype (dtype (ds_array nb)) Np.Float32) row)
    else at2 (data out) y x = Some (filled_cell (dim2 (ds_array nb))).
Proof.
  intros Hrun Hrect Hp.
  apply remap_cell_ok in Hrun as (rows & Hrows & ->). cbn.
  eexists. split; [reflexivity|]. split; [reflexivity|]. cbn.
  set (g := glt_array nb) in *. set (ds := ds_array nb) in *.
  set (cast := Np.astype (dtype ds) Np.Float32).
  pose (R := fun (q : Z * Z) (v : list spec_float) =>
               exists r, take_row ds q.2 q.1 = Ok r /\ v = map cast r).
  assert (Forall2 R (select_masked (valid_glt g) (isub_masked g (valid_glt g)))
                  (map (map cast) rows)) as HR.
  { apply Forall2_fmap_r. eapply Forall2_impl; [exact Hrows|].
    intros q r Hq. exists r. split; [exact Hq | reflexivity]. }
  pose proof (assign_masked_spec R (valid_glt g) _ _ _
                (isub_masked_shape g) (zeros_shape g (dim2 ds) Hrect) HR y x)
    as [Hfalse Htrue].
  assert (at2 (valid_glt g) y x = Some (valid_pair p)) as Hm.
  { unfold valid_glt. rewrite at2_map, Hp. reflexivity. }
  destruct (valid_pair p) eqn:Hv.
  - destruct (Htrue Hm _ (at2_isub_masked g y x p Hp)) as (v & Hv' & r & Hr & ->).
    rewrite Hv in Hr. exists r. split; [exact Hr | exact Hv'].
  - etransitivity; [exact (Hfalse Hm)|].
    apply (at2_replicate _ _ _ (glt_array nb) y x p);
      [reflexivity | now apply rect2_Forall | exact Hp].
Qed.

(** The same cell when the gather raised: [out_ds] holds fill values only. *)
Lemma remap_cell_raise_at (nb nb' : notebook) (e : exn) (y x : nat) (p : Z * Z) :
  remap_cell nb = (nb', Some e) ->
  rect2 (glt_array nb) = true ->
  at2 (glt_array nb) y x = Some p ->
  exists out,
    out_ds nb' = Some out /\ dtype out = Np.Float32 /\
    at2 (data out) y x = Some (filled_cell (dim2 (ds_array nb))).
Proof.
  intros Hrun Hrect Hp. apply remap_cell_raise in Hrun. cbn in Hrun. subst nb'.
  eexists. split; [reflexivity|]. split; [reflexivity|]. cbn.
  eapply at2_replicate; [reflexivity | | exact Hp].
  now apply rect2_Forall.
Qed.

Lemma wrap64_small (z : Z) :
  Np.int64_min <= z <= Np.int64_max -> Np.wrap64 z = z.
Proof.
  unfold Np.int64_min, Np.int64_max, Np.wrap64. intros H.
  rewrite Z.mod_small; lia.
Qed.

Lemma take_row_nonneg (a : ndarray3) (iy ix : Z) (row : list spec_float) :
  0 <= iy -> 0 <= ix -> take_row a iy ix = Ok row ->
  at2 (data a) (Z.to_nat iy) (Z.to_nat ix) = Some row.
Proof.
  intros Hy Hx. unfold take_row, norm_index.
  destruct (0 <=? iy) eqn:Ey; [|lia].
  destruct (0 <=? ix) eqn:Ex; [|lia].
  replace (iy <? 0) with false by lia. replace (ix <? 0) with false by lia.
  rewrite !andb_false_r. cbn [andb].
  destruct (iy <? Z.of_nat (dim0 a)); cbn; [|discriminate].
  destruct (ix <? Z.of_nat (dim1 a)); cbn; [|discriminate].
  destruct (at2 (data a) (Z.to_nat iy) (Z.to_nat ix)); congruence.
Qed.

(** One band of a cell whose pair is a 1-based index pair. *)
Lemma remap_valid_band (nb nb' : notebook) (y x : nat) (gx gy : Z)
  (b : nat) (v : spec_float) :
  remap_cell nb = (nb', None) ->
  rect2 (glt_array nb) = true ->
  at2 (glt_array nb) y x = Some (gx, gy) ->
  1 <= gx <= Np.int64_max ->
  1 <= gy <= Np.int64_max ->
  at3 (data (ds_array nb)) (Z.to_nat (gy - 1)) (Z.to_nat (gx - 1)) b = Some v ->
  exists out,
    out_ds nb' = Some out /\ dtype out = Np.Float32 /\
    at3 (data out) y x b = Some (Np.astype (dtype (ds_array nb)) Np.Float32 v).
Proof.
  intros Hrun Hrect Hp Hgx Hgy Hv.
  destruct (remap_cell_at nb nb' y x (gx, gy) Hrun Hrect Hp) as (out & Ho & Hd & Hcell).
  exists out. split; [exact Ho|]. split; [exact Hd|].
  assert (valid_pair (gx, gy) = true) as Hvalid.
  { unfold valid_pair, GLT_NODATA_VALUE. cbn.
    apply andb_true_intro. split; apply negb_true_iff, Z.eqb_neq; lia. }
  rewrite Hvalid in Hcell. destruct Hcell as (row & Hrow & Hat). cbn in Hrow.
  unfold Np.int64_max in *.
  rewrite !wrap64_small in Hrow by (unfold Np.int64_min, Np.int64_max; lia).
  apply take_row_nonneg in Hrow; [|lia|lia].
  unfold at3 in *. rewrite Hat. rewrite Hrow in Hv.
  rewrite list_lookup_fmap, Hv. reflexivity.
Qed.

(** One band of a cell with a no-data coordinate, whether or not the
    gather raised. *)
Lemma remap_nodata_band (nb : notebook) (y x : nat) (p : Z * Z) (b : nat) :
  rect2 (glt_array nb) = true ->
  at2 (glt_array nb) y x = Some p ->
  valid_pair p = false ->
  (b < dim2 (ds_array nb))%nat ->
  exists out,
    out_ds (remap_cell nb).1 = Some out /\
    at3 (data out) y x b = Some (Np.of_int Np.Float32 fill_value).
Proof.
  intros Hrect Hp Hv Hb.
  destruct (remap_cell nb) as [nb' [e|]] eqn:Hrun; cbn.
  - destruct (remap_cell_raise_at nb nb' e y x p Hrun Hrect Hp) as (out & Ho & _ & Hat).
    exists out. split; [exact Ho|]. unfold at3. rewrite Hat.
    now apply filled_cell_value.
  - destruct (remap_cell_at nb nb' y x p Hrun Hrect Hp) as (out & Ho & _ & Hat).
    rewrite Hv in Hat.
    exists out. split; [exact Ho|]. unfold at3. rewrite Hat.
    now apply filled_cell_value.
Qed.

(** The output is float32 whatever the inputs and the outcome. *)
Lemma remap_out_dtype (nb : notebook) :
  exists out, out_ds (remap_cell nb).1 = Some out /\ dtype out = Np.Float32.
Proof.
  unfold remap_cell. cbn. destruct (fancy_index _ _ _); cbn; eauto.
Qed.

(** The elements of a well-formed array belong to its element type. *)
Lemma wf_at3_valid (a : ndarray3) (i j k : nat) (v : spec_float) :
  wf_ndarray3 a = true -> at3 (data a) i j k = Some v ->
  Np.is_valid (dtype a) v = true.
Proof.
  unfold wf_ndarray3, at3, at2. intros Hwf H.
  apply andb_prop in Hwf as [_ Hwf]. rewrite forallb_forall in Hwf.
  destruct (data a !! i) as [r|] eqn:Hi; [|discriminate].
  destruct (r !! j) as [p|] eqn:Hj; [|discriminate].
  apply list_elem_of_lookup_2, list_elem_of_In, Hwf in Hi.
  apply andb_prop in Hi as [_ Hr]. rewrite forallb_forall in Hr.
  apply list_elem_of_lookup_2, list_elem_of_In, Hr in Hj.
  apply andb_prop in Hj as [_ Hp]. rewrite forallb_forall in Hp.
  apply Hp, list_elem_of_In. eapply list_elem_of_lookup_2, H.
Qed.

(** ** Orthorectification: the claims *)

(** The spec's scenario: a cube of shape (4, 3, 2) and a table of shape
    (2, 2) give an output of shape (2, 2, 2) with the fill vector in cells
    [0, 0] and [1, 1], RawCube[0, 1, :] in cell [0, 1] and RawCube[1, 0, :]
    in cell [1, 0]. *)
Example remap_scenario :
  remap_cell Sample.nb22
  = (Notebook [] [] [[(0, 0); (1, 0)]; [(0, 1); (0, 0)]] Sample.cube32
       (Some (Ndarray3 Np.Float32 2 2 2
                [[filled_cell 2;
                  [Np.of_int Np.Float32 10; Np.of_int Np.Float32 11]];
                 [[Np.of_int Np.Float32 100; Np.of_int Np.Float32 101];
                  filled_cell 2]])), None).
Proof. vm_compute. reflexivity. Qed.

(** C1, as the code has it. When the remap cell does not raise, every
    ortho cell whose GLT pair (glt_x, glt_y) is a pair of 1-based indices
    holds, for every band, the RawCube value at the 0-based indices
    (glt_y - 1, glt_x - 1) converted to float32, the element type of the
    output; when RawCube is itself float32 this is the RawCube value,
    copied verbatim. *)
Theorem remap_valid_cell_copy (nb nb' : notebook) (y x : nat) (gx gy : Z)
  (b : nat) (v : spec_float) :
  remap_cell nb = (nb', None) ->
  rect2 (glt_array nb) = true ->
  at2 (glt_array nb) y x = Some (gx, gy) ->
  1 <= gx <= Np.int64_max ->
  1 <= gy <= Np.int64_max ->
  at3 (data (ds_array nb)) (Z.to_nat (gy - 1)) (Z.to_nat (gx - 1)) b = Some v ->
  exists out,
    out_ds nb' = Some out /\
    at3 (data out) y x b = Some (Np.astype (dtype (ds_array nb)) Np.Float32 v) /\
    (dtype (ds_array nb) = Np.Float32 -> at3 (data out) y x b = Some v).
Proof.
  intros Hrun Hrect Hp Hgx Hgy Hv.
  destruct (remap_valid_band nb nb' y x gx gy b v Hrun Hrect Hp Hgx Hgy Hv)
    as (out & Ho & _ & Hat).
  exists out. split; [exact Ho|]. split; [exact Hat|].
  intros Hd. rewrite Hat, Hd. reflexivity.
Qed.

(** Cell [0, 1] of the (2, 2) table holds the pair (2, 1): the output has
    there, in band 1, the value 11 of RawCube[0, 1, 1]. *)
Lemma remap_valid_cell_copy_witness :
  exists out,
    out_ds (remap_cell Sample.nb22).1 = Some out /\
    at3 (data out) 0 1 1
    = Some (Np.astype Np.Float32 Np.Float32 (Np.of_int Np.Float32 11)) /\
    (dtype (ds_array Sample.nb22) = Np.Float32 ->
     at3 (data out) 0 1 1 = Some (Np.of_int Np.Float32 11)).
Proof.
  apply (remap_valid_cell_copy Sample.nb22 (remap_cell Sample.nb22).1 0 1 2 1 1
           (Np.of_int Np.Float32 11)).
  - vm_compute. reflexivity.
  - vm_compute. reflexivity.
  - vm_compute. reflexivity.
  - unfold Np.int64_max. lia.
  - unfold Np.int64_max. lia.
  - vm_compute. reflexivity.
Defined.

(** C1 fails on a float64 cube: the cell (1, 1) of a cube holding 0.1 is
    valid, the remap succeeds, and the output holds the float32 nearest to
    0.1, which is a different number. *)
Lemma remap_valid_cell_drift :
  valid_pair (1, 1) = true /\
  at3 (data Sample.cube64) 0 0 0 = Some Sample.tenth64 /\
  remap_cell Sample.nb64
  = (Notebook [] [] [[(0, 0)]] Sample.cube64
       (Some (Ndarray3 Np.Float32 1 1 1 [[[Sample.tenth32]]])), None) /\
  Np.equal Sample.tenth32 Sample.tenth64 = false /\
  Sample.tenth32 <> Sample.tenth64.
Proof.
  repeat split; try (vm_compute; reflexivity). discriminate.
Qed.

(** C2. For every ortho cell where glt_x == 0 or glt_y == 0 the output
    of the remap cell holds the fill value, -9999 in the output's element
    type, in every band. *)
Theorem remap_nodata_cell_fill (nb : notebook) (y x : nat) (gx gy : Z) (b : nat) :
  rect2 (glt_array nb) = true ->
  at2 (glt_array nb) y x = Some (gx, gy) ->
  gx = 0 \/ gy = 0 ->
  (b < dim2 (ds_array nb))%nat ->
  exists out,
    out_ds (remap_cell nb).1 = Some out /\
    at3 (data out) y x b = Some (Np.of_int Np.Float32 fill_value) /\
    Np.equal (Np.of_int Np.Float32 fill_value) (Np.of_int Np.Float64 fill_value) = true.
Proof.
  intros Hrect Hp Hz Hb.
  assert (valid_pair (gx, gy) = false) as Hv.
  { unfold valid_pair, GLT_NODATA_VALUE. cbn.
    destruct Hz as [-> | ->]; cbn; [reflexivity | apply andb_false_r]. }
  destruct (remap_nodata_band nb y x (gx, gy) b Hrect Hp Hv Hb) as (out & Ho & Hat).
  exists out. split; [exact Ho|]. split; [exact Hat|]. vm_compute. reflexivity.
Qed.

(** Cell [1, 1] of the (2, 2) table holds (0, 0): band 0 is the fill value. *)
Lemma remap_nodata_cell_fill_witness :
  exists out,
    out_ds (remap_cell Sample.nb22).1 = Some out /\
    at3 (data out) 1 1 0 = Some (Np.of_int Np.Float32 fill_value) /\
    Np.equal (Np.of_int Np.Float32 fill_value) (Np.of_int Np.Float64 fill_value) = true.
Proof.
  apply (remap_nodata_cell_fill Sample.nb22 1 1 0 0 0).
  - vm_compute. reflexivity.
  - vm_compute. reflexivity.
  - left. reflexivity.
  - vm_compute. lia.
Defined.

(** C10. The remap cell always binds [out_ds] to a float32 array; after
    a run that did not raise, every copied value is the float32 rounding
    of the RawCube value it comes from, and it is that value itself when
    RawCube is float32; a float64 RawCube value such as 0.1 is not copied
    exactly. *)
Theorem remap_output_float32 (nb nb' : notebook) (y x : nat) (gx gy : Z)
  (b : nat) (v : spec_float) :
  remap_cell nb = (nb', None) ->
  rect2 (glt_array nb) = true ->
  wf_ndarray3 (ds_array nb) = true ->
  at2 (glt_array nb) y x = Some (gx, gy) ->
  1 <= gx <= Np.int64_max ->
  1 <= gy <= Np.int64_max ->
  at3 (data (ds_array nb)) (Z.to_nat (gy - 1)) (Z.to_nat (gx - 1)) b = Some v ->
  (forall nb0, exists out0,
      out_ds (remap_cell nb0).1 = Some out0 /\ dtype out0 = Np.Float32) /\
  (exists out,
      out_ds nb' = Some out /\
      at3 (data out) y x b = Some (Np.round_to Np.Float32 v) /\
      (dtype (ds_array nb) = Np.Float32 -> at3 (data out) y x b = Some v)) /\
  Np.is_valid Np.Float64 Sample.tenth64 = true /\
  Np.equal (Np.astype Np.Float64 Np.Float32 Sample.tenth64) Sample.tenth64 = false.
Proof.
  intros Hrun Hrect Hwf Hp Hgx Hgy Hv.
  split; [exact remap_out_dtype|]. split; [|split; vm_compute; reflexivity].
  destruct (remap_valid_band nb nb' y x gx gy b v Hrun Hrect Hp Hgx Hgy Hv)
    as (out & Ho & _ & Hat).
  exists out. split; [exact Ho|]. rewrite Hat.
  pose proof (wf_at3_valid _ _ _ _ _ Hwf Hv) as Hval.
  destruct (dtype (ds_array nb)) eqn:Hd; cbn.
  - rewrite (round_to_valid Np.Float32 v Hval). split; [reflexivity | reflexivity].
  - split; [reflexivity | discriminate].
Qed.

(** On the (2, 2) table and the float32 cube, band 0 of cell [1, 0]. *)
Lemma remap_output_float32_witness :
  (forall nb0, exists out0,
      out_ds (remap_cell nb0).1 = Some out0 /\ dtype out0 = Np.Float32) /\
  (exists out,
      out_ds (remap_cell Sample.nb22).1 = Some out /\
      at3 (data out) 1 0 0
      = Some (Np.round_to Np.Float32 (Np.of_int Np.Float32 100)) /\
      (dtype (ds_array Sample.nb22) = Np.Float32 ->
       at3 (data out) 1 0 0 = Some (Np.of_int Np.Float32 100))) /\
  Np.is_valid Np.Float64 Sample.tenth64 = true /\
  Np.equal (Np.astype Np.Float64 Np.Float32 Sample.tenth64) Sample.tenth64 = false.
Proof.
  apply (remap_output_float32 Sample.nb22 (remap_cell Sample.nb22).1 1 0 1 2 0
           (Np.of_int Np.Float32 100)).
  - vm_compute. reflexivity.
  - vm_compute. reflexivity.
  - vm_compute. reflexivity.
  - vm_compute. reflexivity.
  - unfold Np.int64_max. lia.
  - unfold Np.int64_max. lia.
  - vm_compute. reflexivity.
Defined.

(** The remap cell does not read [out_ds]. *)
Lemma remap_cell_unbound gx gy g ds o :
  remap_cell (Notebook gx gy g ds o) = remap_cell (Notebook gx gy g ds None).
Proof. reflexivity. Qed.

(** The remap cell rebinds neither the GLT arrays of the location group
    nor RawCube. *)
Lemma remap_cell_keeps (nb : notebook) :
  glt_x (remap_cell nb).1 = glt_x nb /\
  glt_y (remap_cell nb).1 = glt_y nb /\
  ds_array (remap_cell nb).1 = ds_array nb.
Proof.
  unfold remap_cell. cbn. destruct (fancy_index _ _ _); cbn; auto.
Qed.

(** Building the paired array again from glt_x and glt_y undoes the
    decrement, and the remap then repeats itself. *)
Lemma rebuild_then_remap (nb : notebook) :
  (glt_cell nb).2 = None ->
  remap_cell (glt_cell (remap_cell (glt_cell nb).1).1).1
  = remap_cell (glt_cell nb).1.
Proof.
  intros Hok.
  assert (exists g, build_glt_array (glt_x nb) (glt_y nb) = Ok g) as [g Hb].
  { unfold glt_cell in Hok.
    destruct (build_glt_array _ _); [eauto | cbn in Hok; discriminate]. }
  assert (glt_cell nb
          = (Notebook (glt_x nb) (glt_y nb) g (ds_array nb) (out_ds nb), None)) as ->.
  { unfold glt_cell. now rewrite Hb. }
  cbn [fst].
  assert (forall o,
             glt_cell (remap_cell (Notebook (glt_x nb) (glt_y nb) g (ds_array nb) o)).1
             = (Notebook (glt_x nb) (glt_y nb) g (ds_array nb)
                  (out_ds (remap_cell (Notebook (glt_x nb) (glt_y nb) g (ds_array nb) o)).1),
                None)) as Hre.
  { intros o.
    destruct (remap_cell_keeps (Notebook (glt_x nb) (glt_y nb) g (ds_array nb) o))
      as (Hx & Hy & Hd).
    cbn [glt_x glt_y ds_array] in Hx, Hy, Hd.
    unfold glt_cell. rewrite Hx, Hy, Hd, Hb. reflexivity. }
  rewrite Hre. cbn [fst]. rewrite remap_cell_unbound.
  symmetry. apply remap_cell_unbound.
Qed.

(** C4, as the code has it. The remap cell is a function of the values
    of [glt_array] and [ds_array]: equal inputs give the same output and
    the same outcome. It leaves RawCube and the GLT arrays of the location
    group as they were, but it rewrites the paired index array
    [glt_array] in place, one less in both coordinates of every valid
    cell. When the cell that builds [glt_array] from glt_x and glt_y is
    run again before it, the remap repeats its output. *)
Theorem remap_cell_effects (nb1 nb2 : notebook) :
  glt_array nb1 = glt_array nb2 ->
  ds_array nb1 = ds_array nb2 ->
  out_ds (remap_cell nb1).1 = out_ds (remap_cell nb2).1 /\
  (remap_cell nb1).2 = (remap_cell nb2).2 /\
  ds_array (remap_cell nb1).1 = ds_array nb1 /\
  glt_x (remap_cell nb1).1 = glt_x nb1 /\
  glt_y (remap_cell nb1).1 = glt_y nb1 /\
  glt_array (remap_cell nb1).1
  = isub_masked (glt_array nb1) (valid_glt (glt_array nb1)) /\
  (forall nb,
      (glt_cell nb).2 = None ->
      remap_cell (glt_cell (remap_cell (glt_cell nb).1).1).1
      = remap_cell (glt_cell nb).1).
Proof.
  intros Hg Hd.
  assert (remap_cell nb2
          = (Notebook (glt_x nb2) (glt_y nb2) (glt_array (remap_cell nb1).1)
               (ds_array nb1) (out_ds (remap_cell nb1).1), (remap_cell nb1).2)) as H2.
  { unfold remap_cell. cbn. rewrite <- Hg, <- Hd.
    destruct (fancy_index _ _ _); reflexivity. }
  rewrite H2. cbn [fst snd out_ds].
  split; [reflexivity|]. split; [reflexivity|].
  split; [|split; [|split; [|split]]].
  - unfold remap_cell. cbn. destruct (fancy_index _ _ _); reflexivity.
  - unfold remap_cell. cbn. destruct (fancy_index _ _ _); reflexivity.
  - unfold remap_cell. cbn. destruct (fancy_index _ _ _); reflexivity.
  - unfold remap_cell. cbn. destruct (fancy_index _ _ _); reflexivity.
  - exact rebuild_then_remap.
Qed.

(** Two notebooks with the same table and cube, differing in the arrays
    of the location group only. *)
Lemma remap_cell_effects_witness :
  out_ds (remap_cell Sample.nb22).1
  = out_ds (remap_cell (Notebook [[S754_nan]] [] Sample.glt22 Sample.cube32 None)).1 /\
  (remap_cell Sample.nb22).2
  = (remap_cell (Notebook [[S754_nan]] [] Sample.glt22 Sample.cube32 None)).2 /\
  ds_array (remap_cell Sample.nb22).1 = ds_array Sample.nb22 /\
  glt_x (remap_cell Sample.nb22).1 = glt_x Sample.nb22 /\
  glt_y (remap_cell Sample.nb22).1 = glt_y Sample.nb22 /\
  glt_array (remap_cell Sample.nb22).1
  = isub_masked (glt_array Sample.nb22) (valid_glt (glt_array Sample.nb22)) /\
  (forall nb,
      (glt_cell nb).2 = None ->
      remap_cell (glt_cell (remap_cell (glt_cell nb).1).1).1
      = remap_cell (glt_cell nb).1).
Proof.
  apply (remap_cell_effects Sample.nb22
           (Notebook [[S754_nan]] [] Sample.glt22 Sample.cube32 None));
    reflexivity.
Defined.

(** C4 fails: the remap cell changes its GLT input. After one run on the
    (2, 2) table the valid pairs (2, 1) and (1, 2) have become (1, 0) and
    (0, 1); run again on the notebook it left, the cell finds no valid
    pair and its output differs from the first one. *)
Lemma remap_cell_mutates_glt :
  glt_array Sample.nb22 = [[(0, 0); (2, 1)]; [(1, 2); (0, 0)]] /\
  glt_array (remap_cell Sample.nb22).1 = [[(0, 0); (1, 0)]; [(0, 1); (0, 0)]] /\
  glt_array (remap_cell Sample.nb22).1 <> glt_array Sample.nb22 /\
  ds_array (remap_cell Sample.nb22).1 = ds_array Sample.nb22 /\
  out_ds (remap_cell (remap_cell Sample.nb22).1).1
  <> out_ds (remap_cell Sample.nb22).1.
Proof.
  repeat split; try (vm_compute; reflexivity); vm_compute; discriminate.
Qed.

(** ** Out-of-range indices *)

Lemma select_row_elem {A} (mask : list bool) :
  forall (row : list A) x it,
    mask !! x = Some true -> row !! x = Some it -> it ∈ select_row mask row.
Proof.
  induction mask as [|m mask IH]; intros row x it Hm Hr; [discriminate|].
  destruct row as [|v row]; [discriminate|].
  destruct x as [|x]; cbn in *.
  - injection Hm as ->. injection Hr as ->. left.
  - destruct m; [right|]; eapply IH; eassumption.
Qed.

Lemma select_masked_elem {A} (mask : list (list bool)) :
  forall (a : list (list A)) y x it,
    at2 mask y x = Some true -> at2 a y x = Some it -> it ∈ select_masked mask a.
Proof.
  induction mask as [|m mask IH]; intros a y x it Hm Ha; [discriminate|].
  destruct a as [|r a]; [destruct y; discriminate|].
  cbn. apply elem_of_app. destruct y as [|y].
  - left. unfold at2 in Hm, Ha. cbn in Hm, Ha. eapply select_row_elem; eassumption.
  - right. eapply IH; [exact Hm | exact Ha].
Qed.

Lemma norm_index_out_of_range (n : nat) (i : Z) :
  out_of_range n i -> norm_index n i = Raise IndexError.
Proof.
  unfold out_of_range, norm_index. intros H.
  replace ((0 <=? i) && (i <? Z.of_nat n)) with false
    by (symmetry; apply andb_false_iff; lia).
  replace ((- Z.of_nat n <=? i) && (i <? 0)) with false
    by (symmetry; apply andb_false_iff; lia).
  reflexivity.
Qed.

Lemma take_row_exn (a : ndarray3) (iy ix : Z) (e : exn) :
  take_row a iy ix = Raise e -> e = IndexError.
Proof.
  unfold take_row, norm_index.
  repeat (match goal with
          | |- context [if ?c then _ else _] => destruct c
          | |- context [match ?o with Some _ => _ | None => _ end] => destruct o
          end; cbn); congruence.
Qed.

Lemma take_row_out_of_range (a : ndarray3) (iy ix : Z) :
  out_of_range (dim0 a) iy \/ out_of_range (dim1 a) ix ->
  take_row a iy ix = Raise IndexError.
Proof.
  intros [H|H]; unfold take_row.
  - now rewrite (norm_index_out_of_range _ _ H).
  - rewrite (norm_index_out_of_range _ _ H).
    destruct (norm_index (dim0 a) iy) as [n|e] eqn:E; [reflexivity|].
    cbn. f_equal. revert E. unfold norm_index.
    repeat (match goal with
            | |- context [if ?c then _ else _] => destruct c
            end); congruence.
Qed.

(** C5, as the code has it. If a valid cell (both coordinates non-zero)
    has a corrected index that numpy refuses on its axis, at or beyond
    the axis length or below minus the axis length, the remap cell raises
    IndexError and copies nothing: [out_ds] is left holding the fill value
    everywhere. *)
Theorem remap_out_of_range_raises (nb : notebook) (y x : nat) (gx gy : Z) :
  at2 (glt_array nb) y x = Some (gx, gy) ->
  gx <> 0 -> gy <> 0 ->
  out_of_range (dim0 (ds_array nb)) (Np.wrap64 (gy - 1)) \/
  out_of_range (dim1 (ds_array nb)) (Np.wrap64 (gx - 1)) ->
  (remap_cell nb).2 = Some IndexError /\
  out_ds (remap_cell nb).1
  = Some (zeros_plus_fill (shape2 (glt_array nb)).1 (shape2 (glt_array nb)).2
            (dim2 (ds_array nb))).
Proof.
  intros Hp Hx Hy Hout.
  assert (valid_pair (gx, gy) = true) as Hv.
  { unfold valid_pair, GLT_NODATA_VALUE. cbn.
    apply andb_true_intro. split; apply negb_true_iff, Z.eqb_neq; assumption. }
  set (g := glt_array nb) in *.
  assert (decrement_pair (gx, gy) ∈ select_masked (valid_glt g) (isub_masked g (valid_glt g)))
    as Hin.
  { apply (select_masked_elem _ _ y x).
    - unfold valid_glt. rewrite at2_map. fold g in Hp. rewrite Hp. cbn. now rewrite Hv.
    - rewrite (at2_isub_masked g y x _ Hp), Hv. reflexivity. }
  assert (fancy_index (ds_array nb)
            (map snd (select_masked (valid_glt g) (isub_masked g (valid_glt g))))
            (map fst (select_masked (valid_glt g) (isub_masked g (valid_glt g))))
          = Raise IndexError) as Hraise.
  { unfold fancy_index. rewrite zip_snd_fst.
    apply (mapM_Raise _ IndexError _
             ((decrement_pair (gx, gy)).2, (decrement_pair (gx, gy)).1)).
    - intros a' e. apply take_row_exn.
    - apply (list_elem_of_fmap_2 (fun q : Z * Z => (q.2, q.1))), Hin.
    - cbn. now apply take_row_out_of_range. }
  unfold remap_cell. cbn. fold g. rewrite Hraise. cbn. split; reflexivity.
Qed.

(** The pair (7, 1) on a cube of 3 columns. *)
Lemma remap_out_of_range_raises_witness :
  (remap_cell Sample.nb_far).2 = Some IndexError /\
  out_ds (remap_cell Sample.nb_far).1
  = Some (zeros_plus_fill (shape2 (glt_array Sample.nb_far)).1
            (shape2 (glt_array Sample.nb_far)).2
            (dim2 (ds_array Sample.nb_far))).
Proof.
  apply (remap_out_of_range_raises Sample.nb_far 0 0 7 1).
  - reflexivity.
  - lia.
  - lia.
  - right. right. vm_compute. discriminate.
Defined.

(** C5 fails. The pair (-1, 1) is non-zero and its corrected x, -2, is
    outside [0, 3): the remap does not fail, the index wraps to column 1
    and the output holds RawCube[0, 1, :]. The pair (7, 0) has an x
    outside the cube too, and the remap succeeds with the fill value. *)
Lemma remap_wraps_negative_index :
  Np.wrap64 (-1 - 1) = -2 /\
  dim1 Sample.cube32 = 3%nat /\
  remap_cell Sample.nb_wrap
  = (Notebook [] [] [[(-2, 0)]] Sample.cube32
       (Some (Ndarray3 Np.Float32 1 1 2
                [[[Np.of_int Np.Float32 10; Np.of_int Np.Float32 11]]])), None) /\
  at2 (data Sample.cube32) 0 1
  = Some [Np.of_int Np.Float32 10; Np.of_int Np.Float32 11] /\
  remap_cell Sample.nb_half
  = (Notebook [] [] [[(7, 0)]] Sample.cube32
       (Some (Ndarray3 Np.Float32 1 1 2
                [[[Np.of_int Np.Float32 fill_value;
                   Np.of_int Np.Float32 fill_value]]])), None).
Proof.
  repeat split; vm_compute; reflexivity.
Qed.

(** ** Coordinates from the geotransform *)

Lemma geo_step_ok (GT : list spec_float) (o w : nat) (g_o g_w : spec_float)
  (arr : list spec_float) (i : nat) :
  GT !! o = Some g_o -> GT !! w = Some g_w -> (i < length arr)%nat ->
  geo_step GT o w arr i = Ok (<[i := pixel_center g_o g_w i]> arr).
Proof.
  intros Ho Hw Hi. unfold geo_step, getitem, setitem. rewrite Ho, Hw.
  cbv [mbind result_bind]. now rewrite bool_decide_eq_true_2.
Qed.

(** The loop invariant: after [n] rounds from [start] the cells
    [start .. start + n - 1] hold their pixel centres, the others are as
    they were. *)
Lemma for_range_geo (GT : list spec_float) (o w : nat) (g_o g_w : spec_float) :
  GT !! o = Some g_o -> GT !! w = Some g_w ->
  forall (n start : nat) (arr : list spec_float),
    (start + n <= length arr)%nat ->
    exists arr',
      for_range (geo_step GT o w) arr start n = Ok arr' /\
      length arr' = length arr /\
      forall i,
        arr' !! i = if bool_decide (start <= i < start + n)%nat
                    then Some (pixel_center g_o g_w i) else arr !! i.
Proof.
  intros Ho Hw. induction n as [|n IH]; intros start arr Hlen.
  - exists arr. split; [reflexivity|]. split; [reflexivity|].
    intros i. rewrite bool_decide_eq_false_2 by lia. reflexivity.
  - cbn [for_range]. rewrite (geo_step_ok GT o w g_o g_w arr start Ho Hw) by lia.
    cbv [mbind result_bind].
    destruct (IH (S start) (<[start := pixel_center g_o g_w start]> arr))
      as (arr' & Hrun & Hlen' & Hi).
    { rewrite length_insert. lia. }
    exists arr'. split; [exact Hrun|]. split.
    { now rewrite Hlen', length_insert. }
    intros i. rewrite Hi.
    destruct (decide (i = start)) as [->|Hne].
    + rewrite bool_decide_eq_false_2 by lia.
      rewrite bool_decide_eq_true_2 by lia.
      apply list_lookup_insert_eq. lia.
    + rewrite list_lookup_insert_ne by congruence.
      destruct (decide (S start <= i < S start + n)%nat).
      * rewrite !bool_decide_eq_true_2 by lia. reflexivity.
      * rewrite !bool_decide_eq_false_2 by lia. reflexivity.
Qed.

(** C6. For the six coefficients of a geotransform and a GLT of shape
    [ortho_y, ortho_x], the coordinate cells return vectors [lat] and
    [lon] of lengths ortho_y and ortho_x with
    lon[x] = origin_x + 0.5*pixel_width + x*pixel_width for every x in
    [0, ortho_x) and lat[y] = origin_y + 0.5*pixel_height + y*pixel_height
    for every y in [0, ortho_y). *)
Theorem coords_pixel_centers
  (origin_x pixel_width row_rot origin_y col_rot pixel_height : spec_float)
  (gx : list (list spec_float)) :
  exists lat lon,
    coords_cell [origin_x; pixel_width; row_rot; origin_y; col_rot; pixel_height] gx
    = Ok (lat, lon) /\
    length lon = (shape2 gx).2 /\
    length lat = (shape2 gx).1 /\
    (forall x, (x < (shape2 gx).2)%nat ->
               lon !! x = Some (pixel_center origin_x pixel_width x)) /\
    (forall y, (y < (shape2 gx).1)%nat ->
               lat !! y = Some (pixel_center origin_y pixel_height y)).
Proof.
  unfold coords_cell.
  set (GT := [origin_x; pixel_width; row_rot; origin_y; col_rot; pixel_height]).
  set (dim_x := (shape2 gx).2). set (dim_y := (shape2 gx).1).
  destruct (for_range_geo GT 0 1 origin_x pixel_width eq_refl eq_refl dim_x 0
              (replicate dim_x (S754_zero false)))
    as (lon & Hlon & Hlonlen & Hloni).
  { rewrite length_replicate. lia. }
  destruct (for_range_geo GT 3 5 origin_y pixel_height eq_refl eq_refl dim_y 0
              (replicate dim_y (S754_zero false)))
    as (lat & Hlat & Hlatlen & Hlati).
  { rewrite length_replicate. lia. }
  exists lat, lon. rewrite Hlon. cbv [mbind result_bind]. rewrite Hlat.
  cbv [mret result_ret].
  rewrite length_replicate in Hlonlen, Hlatlen.
  repeat split; try assumption.
  - intros x Hx. rewrite Hloni, bool_decide_eq_true_2 by lia. reflexivity.
  - intros y Hy. rewrite Hlati, bool_decide_eq_true_2 by lia. reflexivity.
Qed.

(** C3, as the code has it. The coordinate cells never read [row_rot]
    and [col_rot]: whatever their values the cells return, without
    raising, the lat and lon vectors of the north-up grid. *)
Theorem coords_ignore_rotation
  (origin_x pixel_width row_rot origin_y col_rot pixel_height : spec_float)
  (row_rot' col_rot' : spec_float) (gx : list (list spec_float)) :
  coords_cell [origin_x; pixel_width; row_rot; origin_y; col_rot; pixel_height] gx
  = coords_cell [origin_x; pixel_width; row_rot'; origin_y; col_rot'; pixel_height] gx /\
  exists lat lon,
    coords_cell [origin_x; pixel_width; row_rot; origin_y; col_rot; pixel_height] gx
    = Ok (lat, lon).
Proof.
  split; [reflexivity|]. unfold coords_cell.
  set (GT := [origin_x; pixel_width; row_rot; origin_y; col_rot; pixel_height]).
  destruct (for_range_geo GT 0 1 origin_x pixel_width eq_refl eq_refl (shape2 gx).2 0
              (replicate (shape2 gx).2 (S754_zero false)))
    as (lon & Hlon & _).
  { rewrite length_replicate. lia. }
  destruct (for_range_geo GT 3 5 origin_y pixel_height eq_refl eq_refl (shape2 gx).1 0
              (replicate (shape2 gx).1 (S754_zero false)))
    as (lat & Hlat & _).
  { rewrite length_replicate. lia. }
  exists lat, lon. rewrite Hlon. cbv [mbind result_bind]. rewrite Hlat. reflexivity.
Qed.

(** C3 fails: with row_rot = 0.01 the coordinate cells raise nothing and
    return the very vectors of the grid without rotation. *)
Lemma coords_accept_rotation :
  Sample.GT_rot !! 2%nat = Some Sample.hundredth64 /\
  Np.eq_zero Sample.hundredth64 = false /\
  coords_cell Sample.GT_rot Sample.glt_x23
  = Ok ([pixel_center (Sample.f64 (-39)) (SFopp Sample.half64) 0;
         pixel_center (Sample.f64 (-39)) (SFopp Sample.half64) 1],
        [pixel_center (Sample.f64 (-62)) Sample.half64 0;
         pixel_center (Sample.f64 (-62)) Sample.half64 1;
         pixel_center (Sample.f64 (-62)) Sample.half64 2]) /\
  coords_cell Sample.GT_rot Sample.glt_x23
  = coords_cell Sample.GT_north Sample.glt_x23.
Proof.
  repeat split; vm_compute; reflexivity.
Qed.

(** ** Masking the bad wavelengths *)

(** C7. The good-wavelengths masking step sets, at every pixel, every
    band whose good_wavelengths entry is 0 to NaN and leaves every band
    whose entry is 1 as it was. *)
Theorem mask_good_wavelengths_bands (a : ndarray3) (good : list spec_float)
  (d c b : nat) (g v : spec_float) :
  length good = dim2 a ->
  at3 (data a) d c b = Some v ->
  good !! b = Some g ->
  exists a',
    mask_good_wavelengths a good = Ok a' /\
    (Np.eq_zero g = true -> at3 (data a') d c b = Some Np.nan) /\
    (Np.equal g (Np.of_int Np.Float64 1) = true -> at3 (data a') d c b = Some v).
Proof.
  intros Hlen Hv Hg. unfold mask_good_wavelengths.
  rewrite bool_decide_eq_true_2 by exact Hlen.
  eexists. split; [reflexivity|]. cbn [data].
  assert (at3 (map (map (fun p => zip_with mask_band good p)) (data a)) d c b
          = Some (mask_band g v)) as Hat.
  { unfold at3 in *. rewrite at2_map.
    destruct (at2 (data a) d c) as [p|]; [|discriminate]. cbn.
    rewrite lookup_zip_with, Hg. cbn. rewrite Hv. reflexivity. }
  rewrite Hat. unfold mask_band. split.
  - intros ->. reflexivity.
  - intros H1. destruct g; try discriminate. reflexivity.
Qed.

(** [good_wavelengths = [1, 0, 1]] on three bands: band 1, whose entry is
    0, becomes NaN. *)
Lemma mask_good_wavelengths_bands_witness :
  exists a',
    mask_good_wavelengths Sample.cube3 Sample.good101 = Ok a' /\
    (Np.eq_zero (Sample.f64 0) = true -> at3 (data a') 0 0 1 = Some Np.nan) /\
    (Np.equal (Sample.f64 0) (Np.of_int Np.Float64 1) = true ->
     at3 (data a') 0 0 1 = Some (Np.of_int Np.Float32 6)).
Proof.
  apply (mask_good_wavelengths_bands Sample.cube3 Sample.good101 0 0 1
           (Sample.f64 0) (Np.of_int Np.Float32 6)); reflexivity.
Defined.

(** ** Building the paired index array *)

Lemma zip_with_zip_lengths {A B} (a : list (list A)) :
  forall b : list (list B),
    length <$> a = length <$> b ->
    length <$> zip_with zip a b = length <$> a.
Proof.
  induction a as [|r a IH]; intros [|r' b] H; try discriminate; [reflexivity|].
  cbn in *. injection H as Hr H. f_equal; [|now apply IH].
  rewrite length_zip_with. lia.
Qed.

Lemma rect2_lengths {A B} (a : list (list A)) (b : list (list B)) :
  length <$> a = length <$> b -> rect2 a = rect2 b.
Proof.
  intros H. unfold rect2.
  assert ((shape2 a).2 = (shape2 b).2) as ->.
  { destruct a, b; try discriminate; [reflexivity|]. cbn in *. congruence. }
  generalize (shape2 b).2. intros n. revert b H.
  induction a as [|r a IH]; intros [|r' b] H; try discriminate; [reflexivity|].
  cbn in *. injection H as -> H. f_equal. now apply IH.
Qed.

Lemma build_glt_array_rect (gx gy : list (list spec_float)) (g : list (list (Z * Z))) :
  build_glt_array gx gy = Ok g -> rect2 gx = true -> rect2 g = true.
Proof.
  unfold build_glt_array, stack_last. case_bool_decide as Hs; [|discriminate].
  cbv [mbind result_bind mret result_ret]. intros [= <-] <-.
  apply rect2_lengths.
  rewrite <- (zip_with_zip_lengths gx gy Hs).
  rewrite <- !list_fmap_compose. apply list_fmap_ext.
  intros _ r _. cbn. apply length_map.
Qed.

Lemma build_glt_array_at (gx gy : list (list spec_float)) (g : list (list (Z * Z)))
  (y x : nat) (vx vy : spec_float) :
  build_glt_array gx gy = Ok g ->
  at2 gx y x = Some vx -> at2 gy y x = Some vy ->
  at2 g y x = Some (glt_entry (vx, vy)).
Proof.
  unfold build_glt_array, stack_last. case_bool_decide; [|discriminate].
  cbv [mbind result_bind mret result_ret]. intros [= <-] Hx Hy.
  rewrite at2_map. unfold at2 in *. rewrite lookup_zip_with.
  destruct (gx !! y) as [rx|]; [|discriminate].
  destruct (gy !! y) as [ry|]; [|discriminate]. cbn.
  rewrite (lookup_zip_with pair rx ry x), Hx. cbn. rewrite Hy. reflexivity.
Qed.

(** C8. When the paired index array is built, every NaN entry of glt_x
    or glt_y becomes the no-data value 0; the cell is then not valid and
    the remap cell gives it the fill value in every band. *)
Theorem nan_becomes_nodata (nb nb1 : notebook) (y x : nat) (vx vy : spec_float)
  (b : nat) :
  glt_cell nb = (nb1, None) ->
  rect2 (glt_x nb) = true ->
  at2 (glt_x nb) y x = Some vx ->
  at2 (glt_y nb) y x = Some vy ->
  Np.isnan vx = true \/ Np.isnan vy = true ->
  (b < dim2 (ds_array nb))%nat ->
  exists p,
    at2 (glt_array nb1) y x = Some p /\
    (Np.isnan vx = true -> p.1 = GLT_NODATA_VALUE) /\
    (Np.isnan vy = true -> p.2 = GLT_NODATA_VALUE) /\
    valid_pair p = false /\
    exists out,
      out_ds (remap_cell nb1).1 = Some out /\
      at3 (data out) y x b = Some (Np.of_int Np.Float32 fill_value).
Proof.
  intros Hcell Hrect Hx Hy Hnan Hb. unfold glt_cell in Hcell.
  destruct (build_glt_array (glt_x nb) (glt_y nb)) as [g|] eqn:Hg; [|discriminate].
  injection Hcell as <-.
  pose proof (build_glt_array_at _ _ _ y x vx vy Hg Hx Hy) as Hp.
  pose proof (build_glt_array_rect _ _ _ Hg Hrect) as Hr.
  exists (glt_entry (vx, vy)). cbn [glt_array].
  assert (Np.isnan vx = true -> (glt_entry (vx, vy)).1 = GLT_NODATA_VALUE) as H1.
  { destruct vx; try discriminate. reflexivity. }
  assert (Np.isnan vy = true -> (glt_entry (vx, vy)).2 = GLT_NODATA_VALUE) as H2.
  { destruct vy; try discriminate. reflexivity. }
  assert (valid_pair (glt_entry (vx, vy)) = false) as Hv.
  { unfold valid_pair. destruct Hnan as [H|H].
    - rewrite (H1 H). reflexivity.
    - rewrite (H2 H). apply andb_false_r. }
  repeat split; try assumption.
  apply (remap_nodata_band _ y x (glt_entry (vx, vy)) b); assumption.
Qed.

(** A NaN in cell [0, 0] of glt_x. *)
Lemma nan_becomes_nodata_witness :
  exists p,
    at2 (glt_array (glt_cell Sample.nb_nan).1) 0 0 = Some p /\
    (Np.isnan S754_nan = true -> p.1 = GLT_NODATA_VALUE) /\
    (Np.isnan (Sample.f64 1) = true -> p.2 = GLT_NODATA_VALUE) /\
    valid_pair p = false /\
    exists out,
      out_ds (remap_cell (glt_cell Sample.nb_nan).1).1 = Some out /\
      at3 (data out) 0 0 1 = Some (Np.of_int Np.Float32 fill_value).
Proof.
  apply (nan_becomes_nodata Sample.nb_nan (glt_cell Sample.nb_nan).1 0 0
           S754_nan (Sample.f64 1) 1).
  - reflexivity.
  - reflexivity.
  - reflexivity.
  - reflexivity.
  - left. reflexivity.
  - vm_compute. lia.
Defined.

(** ** The quality mask *)

Lemma quality_mask_at (layers : list (list (list spec_float))) (flags : list nat)
  (d c : nat) :
  is_Some (at2 (hd [] layers) d c) ->
  at2 (quality_mask layers flags) d c
  = Some (existsb (selected_flagged layers d c) flags).
Proof.
  intros [v Hv]. unfold quality_mask. destruct layers as [|l0 rest]; [destruct d; discriminate|].
  cbn [hd] in Hv. unfold at2 in *. rewrite list_lookup_imap.
  destruct (l0 !! d) as [row|]; [|discriminate]. cbn.
  rewrite list_lookup_imap, Hv. reflexivity.
Qed.

(** C9. The quality mask is the elementwise OR of the selected layers
    above the threshold 0: a pixel flagged in layer i and in no other
    layer is True in the mask if and only if i is among the selected
    indices. *)
Theorem quality_mask_single_layer (layers : list (list (list spec_float)))
  (flags : list nat) (d c i : nat) :
  is_Some (at2 (hd [] layers) d c) ->
  selected_flagged layers d c i = true ->
  (forall j, j <> i -> selected_flagged layers d c j = false) ->
  at2 (quality_mask layers flags) d c
  = Some (existsb (selected_flagged layers d c) flags) /\
  (at2 (quality_mask layers flags) d c = Some true <-> i ∈ flags).
Proof.
  intros Hin Hi Hother. rewrite (quality_mask_at layers flags d c Hin).
  split; [reflexivity|]. split.
  - intros [= H]. apply existsb_exists in H as (j & Hj & Hf).
    destruct (decide (j = i)) as [->|Hne].
    + now apply list_elem_of_In.
    + rewrite (Hother j Hne) in Hf. discriminate.
  - intros H. f_equal. apply existsb_exists. exists i.
    split; [now apply list_elem_of_In | exact Hi].
Qed.

(** The first pixel of the three layers is flagged in layer 0 only; with
    layers 0 and 1 selected it is in the mask. *)
Lemma quality_mask_single_layer_witness :
  at2 (quality_mask Sample.layers3 [0; 1]%nat) 0 0
  = Some (existsb (selected_flagged Sample.layers3 0 0) [0; 1]%nat) /\
  (at2 (quality_mask Sample.layers3 [0; 1]%nat) 0 0 = Some true
   <-> 0%nat ∈ [0; 1]%nat).
Proof.
  apply (quality_mask_single_layer Sample.layers3 [0; 1]%nat 0 0 0).
  - vm_compute. eauto.
  - vm_compute. reflexivity.
  - intros [|[|[|j]]] Hj; try reflexivity. congruence.
Defined.

(** * Further properties of the notebook cells *)

(** ** The shape of the remap output *)

Lemma assign_row_keeps {A} (P : A -> Prop) (mask : list bool) :
  forall dst src : list A,
    Forall P dst -> Forall P src ->
    Forall P (assign_row mask dst src).1 /\
    Forall P (assign_row mask dst src).2 /\
    length (assign_row mask dst src).1 = length dst.
Proof.
  induction mask as [|m mask IH]; intros dst src Hd Hs; [now destruct dst|].
  destruct dst as [|d dst]; [auto|]. cbn.
  inversion Hd as [|? ? Hd0 Hd']; subst.
  destruct m.
  - destruct src as [|s src]; [auto|].
    inversion Hs as [|? ? Hs0 Hs']; subst.
    destruct (IH dst src Hd' Hs') as (H1 & H2 & H3).
    destruct (assign_row mask dst src) as [r rest]. cbn in *.
    repeat split; [constructor; assumption | assumption | now rewrite H3].
  - destruct (IH dst src Hd' Hs) as (H1 & H2 & H3).
    destruct (assign_row mask dst src) as [r rest]. cbn in *.
    repeat split; [constructor; assumption | assumption | now rewrite H3].
Qed.

Lemma assign_masked_keeps {A} (P : A -> Prop) (n : nat) (mask : list (list bool)) :
  forall (dst : list (list A)) (src : list A),
    Forall (fun r => length r = n /\ Forall P r) dst -> Forall P src ->
    length (assign_masked mask dst src) = length dst /\
    Forall (fun r => length r = n /\ Forall P r) (assign_masked mask dst src).
Proof.
  induction mask as [|m mask IH]; intros dst src Hd Hs; [now destruct dst|].
  destruct dst as [|d dst]; [auto|]. cbn.
  inversion Hd as [|? ? [Hn Hd0] Hd']; subst.
  destruct (assign_row_keeps P m d src Hd0 Hs) as (H1 & H2 & H3).
  destruct (assign_row m d src) as [r rest]. cbn in *.
  destruct (IH dst rest Hd' H2) as [Hlen Hall].
  split; [now rewrite Hlen|]. constructor; [split; [exact H3 | exact H1] | exact Hall].
Qed.

Lemma take_row_at2 (a : ndarray3) (iy ix : Z) (r : list spec_float) :
  take_row a iy ix = Ok r -> exists y x, at2 (data a) y x = Some r.
Proof.
  unfold take_row. destruct (norm_index (dim0 a) iy) as [y|]; [|discriminate].
  destruct (norm_index (dim1 a) ix) as [x|]; [|discriminate].
  cbv [mbind result_bind].
  destruct (at2 (data a) y x) as [v|] eqn:E; [|discriminate].
  intros [= <-]. eauto.
Qed.

Lemma wf_at2 (a : ndarray3) (y x : nat) (r : list spec_float) :
  wf_ndarray3 a = true -> at2 (data a) y x = Some r ->
  length r = dim2 a /\ forallb (Np.is_valid (dtype a)) r = true.
Proof.
  unfold wf_ndarray3, at2. intros Hwf H.
  apply andb_prop in Hwf as [_ Hwf]. rewrite forallb_forall in Hwf.
  destruct (data a !! y) as [row|] eqn:Hy; [|discriminate].
  apply list_elem_of_lookup_2, list_elem_of_In, Hwf in Hy.
  apply andb_prop in Hy as [_ Hr]. rewrite forallb_forall in Hr.
  apply list_elem_of_lookup_2, list_elem_of_In, Hr in H.
  apply andb_prop in H as [H1 H2]. split; [now apply Nat.eqb_eq | exact H2].
Qed.

Lemma forallb_Forall {A} (f : A -> bool) (l : list A) :
  forallb f l = true <-> Forall (fun v => f v = true) l.
Proof.
  rewrite forallb_forall, Forall_forall. split; intros H v Hv; apply H.
  - now apply list_elem_of_In.
  - now apply list_elem_of_In in Hv.
Qed.

Lemma map_astype_same (d : Np.dtype) (r : list spec_float) :
  map (Np.astype d d) r = r.
Proof.
  induction r as [|v r IH]; cbn; [reflexivity|]. rewrite IH.
  unfold Np.astype. now destruct d.
Qed.

(** X1. Whatever the table holds, the remap cell binds [out_ds] to an
    array of the table's two dimensions and RawCube's band count, and the
    data have that shape in every row and cell; when RawCube is a
    well-formed float32 cube, so is the output. *)
Theorem remap_output_shape (nb : notebook) :
  wf_ndarray3 (ds_array nb) = true ->
  exists out,
    out_ds (remap_cell nb).1 = Some out /\
    (dim0 out, dim1 out) = shape2 (glt_array nb) /\
    dim2 out = dim2 (ds_array nb) /\
    has_shape3 out = true /\
    (dtype (ds_array nb) = Np.Float32 -> wf_ndarray3 out = true).
Proof.
  intros Hwf.
  set (g := glt_array nb). set (ds := ds_array nb).
  pose (P := fun p : list spec_float =>
               length p = dim2 ds /\
               (dtype ds = Np.Float32 -> forallb (Np.is_valid Np.Float32) p = true)).
  assert (P (filled_cell (dim2 ds))) as Pfill.
  { split; [apply length_replicate|]. intros _. unfold filled_cell.
    apply forallb_Forall, Forall_replicate. reflexivity. }
  assert (Forall (fun r => length r = (shape2 g).2 /\ Forall P r)
            (replicate (shape2 g).1 (replicate (shape2 g).2 (filled_cell (dim2 ds)))))
    as Hzeros.
  { apply Forall_replicate. split; [apply length_replicate|].
    apply Forall_replicate, Pfill. }
  assert (forall cells,
             length cells = (shape2 g).1 ->
             Forall (fun r => length r = (shape2 g).2 /\ Forall P r) cells ->
             let out := Ndarray3 Np.Float32 (shape2 g).1 (shape2 g).2 (dim2 ds) cells in
             (dim0 out, dim1 out) = shape2 g /\ dim2 out = dim2 ds /\
             has_shape3 out = true /\
             (dtype ds = Np.Float32 -> wf_ndarray3 out = true)) as Hout.
  { intros cells Hlen Hall. cbv zeta. cbn [dim0 dim1 dim2].
    split; [symmetry; apply surjective_pairing|]. split; [reflexivity|].
    unfold has_shape3, wf_ndarray3. cbn [dim0 dim1 dim2 data dtype]. split.
    - apply andb_true_intro. split; [now apply Nat.eqb_eq|].
      apply forallb_Forall. eapply Forall_impl; [exact Hall|].
      intros r [Hr HP]. apply andb_true_intro. split; [now apply Nat.eqb_eq|].
      apply forallb_Forall. eapply Forall_impl; [exact HP|].
      intros p [Hp _]. now apply Nat.eqb_eq.
    - intros Hd. apply andb_true_intro. split; [now apply Nat.eqb_eq|].
      apply forallb_Forall. eapply Forall_impl; [exact Hall|].
      intros r [Hr HP]. apply andb_true_intro. split; [now apply Nat.eqb_eq|].
      apply forallb_Forall. eapply Forall_impl; [exact HP|].
      intros p [Hp Hv]. apply andb_true_intro. split; [now apply Nat.eqb_eq | auto]. }
  destruct (remap_cell nb) as [nb' [e|]] eqn:Hrun.
  - apply remap_cell_raise in Hrun. cbn in Hrun. subst nb'. cbn.
    eexists. split; [reflexivity|]. apply Hout; [apply length_replicate | exact Hzeros].
  - apply remap_cell_ok in Hrun as (rows & Hrows & ->). cbn.
    eexists. split; [reflexivity|].
    assert (Forall P (map (map (Np.astype (dtype ds) Np.Float32)) rows)) as Hsrc.
    { apply Forall_fmap. apply Forall2_Forall_r with (1 := Hrows).
      apply Forall_true. intros q r Hr. unfold P. cbn.
      apply take_row_at2 in Hr as (y & x & Hat).
      destruct (wf_at2 _ _ _ _ Hwf Hat) as [Hlen Hval].
      split; [now rewrite length_map|].
      intros Hd. fold ds in Hval. rewrite Hd in Hval |- *.
      now rewrite map_astype_same. }
    destruct (assign_masked_keeps P (shape2 g).2 (valid_glt g) _ _ Hzeros Hsrc)
      as [Hlen Hall].
    apply Hout; [etransitivity; [exact Hlen | apply length_replicate] | exact Hall].
Qed.

Lemma remap_output_shape_witness :
  exists out,
    out_ds (remap_cell Sample.nb22).1 = Some out /\
    (dim0 out, dim1 out) = shape2 (glt_array Sample.nb22) /\
    dim2 out = dim2 (ds_array Sample.nb22) /\
    has_shape3 out = true /\
    (dtype (ds_array Sample.nb22) = Np.Float32 -> wf_ndarray3 out = true).
Proof.
  apply (remap_output_shape Sample.nb22). vm_compute. reflexivity.
Defined.

(** ** When the remap cell raises and when it does not *)

Lemma select_row_inv {A} (mask : list bool) :
  forall (row : list A) it,
    it ∈ select_row mask row ->
    exists x, mask !! x = Some true /\ row !! x = Some it.
Proof.
  induction mask as [|m mask IH]; intros row it Hin; [inversion Hin|].
  destruct row as [|v row]; [inversion Hin|]. cbn in Hin.
  destruct m.
  - apply elem_of_cons in Hin as [->|Hin]; [exists 0%nat; auto|].
    destruct (IH row it Hin) as (x & Hm & Hr). exists (S x). auto.
  - destruct (IH row it Hin) as (x & Hm & Hr). exists (S x). auto.
Qed.

Lemma select_masked_inv {A} (mask : list (list bool)) :
  forall (a : list (list A)) it,
    it ∈ select_masked mask a ->
    exists y x, at2 mask y x = Some true /\ at2 a y x = Some it.
Proof.
  induction mask as [|m mask IH]; intros a it Hin; [inversion Hin|].
  destruct a as [|r a]; [inversion Hin|]. cbn in Hin.
  apply elem_of_app in Hin as [Hin|Hin].
  - destruct (select_row_inv m r it Hin) as (x & Hm & Hr). exists 0%nat, x. auto.
  - destruct (IH a it Hin) as (y & x & Hm & Hr). exists (S y), x. auto.
Qed.

Lemma mapM_total {A B} (f : A -> result B) (l : list A) :
  Forall (fun a => exists r, f a = Ok r) l -> exists rs, mapM f l = Ok rs.
Proof.
  induction 1 as [|a l [r Hr] _ [rs IH]]; [exists []; reflexivity|].
  exists (r :: rs). cbn. rewrite Hr. cbn. rewrite IH. reflexivity.
Qed.

Lemma take_row_in_range (a : ndarray3) (iy ix : Z) :
  wf_ndarray3 a = true ->
  0 <= iy < Z.of_nat (dim0 a) -> 0 <= ix < Z.of_nat (dim1 a) ->
  exists r, take_row a iy ix = Ok r.
Proof.
  intros Hwf Hy Hx. unfold take_row, norm_index.
  replace ((0 <=? iy) && (iy <? Z.of_nat (dim0 a))) with true
    by (symmetry; apply andb_true_intro; lia).
  replace ((0 <=? ix) && (ix <? Z.of_nat (dim1 a))) with true
    by (symmetry; apply andb_true_intro; lia).
  cbv [mbind result_bind].
  unfold wf_ndarray3 in Hwf. apply andb_prop in Hwf as [Hn Hrows].
  apply Nat.eqb_eq in Hn. rewrite forallb_forall in Hrows.
  unfold at2.
  destruct (data a !! Z.to_nat iy) as [row|] eqn:Hrow.
  - pose proof Hrow as Hin.
    apply list_elem_of_lookup_2, list_elem_of_In, Hrows in Hin.
    apply andb_prop in Hin as [Hlen _]. apply Nat.eqb_eq in Hlen.
    destruct (row !! Z.to_nat ix) as [v|] eqn:Hv; [eauto|].
    apply lookup_ge_None in Hv. lia.
  - apply lookup_ge_None in Hrow. lia.
Qed.

(** X2. If RawCube is well formed, its axes are no longer than 64-bit
    indices reach, and every valid pair of the table (both coordinates
    non-zero) is a 1-based index pair into RawCube, glt_x in
    [1, crosstrack] and glt_y in [1, downtrack], then the remap cell does
    not raise. *)
Theorem remap_in_range_succeeds (nb : notebook) :
  wf_ndarray3 (ds_array nb) = true ->
  Z.of_nat (dim0 (ds_array nb)) <= Np.int64_max ->
  Z.of_nat (dim1 (ds_array nb)) <= Np.int64_max ->
  (forall y x gx gy,
      at2 (glt_array nb) y x = Some (gx, gy) -> gx <> 0 -> gy <> 0 ->
      1 <= gx <= Z.of_nat (dim1 (ds_array nb)) /\
      1 <= gy <= Z.of_nat (dim0 (ds_array nb))) ->
  (remap_cell nb).2 = None.
Proof.
  intros Hwf H0 H1 Hglt.
  set (g := glt_array nb) in *. set (ds := ds_array nb) in *.
  assert (exists rows,
             fancy_index ds
               (map snd (select_masked (valid_glt g) (isub_masked g (valid_glt g))))
               (map fst (select_masked (valid_glt g) (isub_masked g (valid_glt g))))
             = Ok rows) as [rows Hrows].
  { unfold fancy_index. rewrite zip_snd_fst. apply mapM_total.
    apply Forall_fmap, Forall_forall. intros q Hq. cbn.
    apply select_masked_inv in Hq as (y & x & Hm & Hq).
    unfold valid_glt in Hm. rewrite at2_map in Hm.
    destruct (at2 g y x) as [[gx gy]|] eqn:Hp; [|discriminate].
    injection Hm as Hv.
    rewrite (at2_isub_masked g y x _ Hp), Hv in Hq. injection Hq as <-.
    unfold valid_pair, GLT_NODATA_VALUE in Hv. cbn in Hv.
    apply andb_prop in Hv as [Hx Hy].
    apply negb_true_iff, Z.eqb_neq in Hx. apply negb_true_iff, Z.eqb_neq in Hy.
    destruct (Hglt y x gx gy Hp Hx Hy) as [Hgx Hgy]. cbn.
    unfold Np.int64_max in H0, H1.
    rewrite !wrap64_small by (unfold Np.int64_min, Np.int64_max; lia).
    apply take_row_in_range; [exact Hwf | lia | lia]. }
  unfold remap_cell. cbn. fold g ds. rewrite Hrows. reflexivity.
Qed.

Lemma remap_in_range_succeeds_witness : (remap_cell Sample.nb22).2 = None.
Proof.
  apply (remap_in_range_succeeds Sample.nb22).
  - vm_compute. reflexivity.
  - vm_compute. discriminate.
  - vm_compute. discriminate.
  - intros [|[|y]] [|[|x]] gx gy H; vm_compute in H; try discriminate;
      injection H as <- <-; cbn; lia.
Defined.

(** ** Indices that count from the end *)

Lemma norm_index_position (n : nat) (i : Z) (k : nat) :
  norm_index n i = Ok k -> k = py_position n i.
Proof.
  unfold norm_index, py_position.
  destruct ((0 <=? i) && (i <? Z.of_nat n)) eqn:E1.
  - intros [= <-]. replace (i <? 0) with false by lia. reflexivity.
  - destruct ((- Z.of_nat n <=? i) && (i <? 0)) eqn:E2; [|discriminate].
    intros [= <-]. replace (i <? 0) with true by lia. reflexivity.
Qed.

Lemma take_row_position (a : ndarray3) (iy ix : Z) (r : list spec_float) :
  take_row a iy ix = Ok r ->
  at2 (data a) (py_position (dim0 a) iy) (py_position (dim1 a) ix) = Some r.
Proof.
  unfold take_row.
  destruct (norm_index (dim0 a) iy) as [y|] eqn:Ey; [|discriminate].
  destruct (norm_index (dim1 a) ix) as [x|] eqn:Ex; [|discriminate].
  cbv [mbind result_bind].
  apply norm_index_position in Ey as <-. apply norm_index_position in Ex as <-.
  destruct (at2 (data a) y x); congruence.
Qed.

(** X3. After a run that did not raise, a valid cell holds the RawCube
    pixel that Python indexing selects for its corrected pair: a corrected
    index below 0 counts from the end of its axis, so glt_x = -1 reads the
    column before the last one. *)
Theorem remap_index_from_end (nb nb' : notebook) (y x : nat) (gx gy : Z)
  (b : nat) (v : spec_float) :
  remap_cell nb = (nb', None) ->
  rect2 (glt_array nb) = true ->
  at2 (glt_array nb) y x = Some (gx, gy) ->
  gx <> 0 -> gy <> 0 ->
  Np.int64_min < gx <= Np.int64_max ->
  Np.int64_min < gy <= Np.int64_max ->
  at3 (data (ds_array nb))
      (py_position (dim0 (ds_array nb)) (gy - 1))
      (py_position (dim1 (ds_array nb)) (gx - 1)) b = Some v ->
  exists out,
    out_ds nb' = Some out /\
    at3 (data out) y x b = Some (Np.astype (dtype (ds_array nb)) Np.Float32 v).
Proof.
  intros Hrun Hrect Hp Hx Hy Hgx Hgy Hv.
  destruct (remap_cell_at nb nb' y x (gx, gy) Hrun Hrect Hp) as (out & Ho & _ & Hcell).
  exists out. split; [exact Ho|].
  assert (valid_pair (gx, gy) = true) as Hvalid.
  { unfold valid_pair, GLT_NODATA_VALUE. cbn.
    apply andb_true_intro. split; apply negb_true_iff, Z.eqb_neq; assumption. }
  rewrite Hvalid in Hcell. destruct Hcell as (row & Hrow & Hat). cbn in Hrow.
  rewrite !wrap64_small in Hrow by (unfold Np.int64_min, Np.int64_max in *; lia).
  apply take_row_position in Hrow.
  unfold at3 in *. rewrite Hat. rewrite Hrow in Hv.
  rewrite list_lookup_fmap, Hv. reflexivity.
Qed.

(** The pair (-1, 1) on a cube of 3 columns reads column 1. *)
Lemma remap_index_from_end_witness :
  exists out,
    out_ds (remap_cell Sample.nb_wrap).1 = Some out /\
    at3 (data out) 0 0 1
    = Some (Np.astype (dtype (ds_array Sample.nb_wrap)) Np.Float32
              (Np.of_int Np.Float32 11)).
Proof.
  apply (remap_index_from_end Sample.nb_wrap (remap_cell Sample.nb_wrap).1
           0 0 (-1) 1 1 (Np.of_int Np.Float32 11)).
  - vm_compute. reflexivity.
  - vm_compute. reflexivity.
  - vm_compute. reflexivity.
  - lia.
  - lia.
  - unfold Np.int64_min, Np.int64_max. lia.
  - unfold Np.int64_min, Np.int64_max. lia.
  - vm_compute. reflexivity.
Defined.

(** ** Running the remap cell a second time *)

Lemma isub_masked_lengths (g : list (list (Z * Z))) :
  length <$> isub_masked g (valid_glt g) = length <$> g.
Proof.
  unfold isub_masked, valid_glt. induction g as [|r g IH]; cbn; [reflexivity|].
  rewrite IH. f_equal. rewrite length_zip_with, length_map. lia.
Qed.

(** X4. Running the remap cell again on the notebook it left (without
    rebuilding [glt_array]) shifts the picture: a cell whose pair had
    glt_x = 1 or glt_y = 1 now holds the fill value, and a cell whose pair
    was (glt_x, glt_y) with both at least 2 now holds
    RawCube[glt_y - 2, glt_x - 2, :]. *)
Theorem remap_rerun_shifts (nb : notebook) (y x : nat) (gx gy : Z) (b : nat) :
  rect2 (glt_array nb) = true ->
  at2 (glt_array nb) y x = Some (gx, gy) ->
  1 <= gx <= Np.int64_max ->
  1 <= gy <= Np.int64_max ->
  (gx = 1 \/ gy = 1 ->
   (b < dim2 (ds_array nb))%nat ->
   exists out,
     out_ds (remap_cell (remap_cell nb).1).1 = Some out /\
     at3 (data out) y x b = Some (Np.of_int Np.Float32 fill_value)) /\
  (2 <= gx -> 2 <= gy ->
   (remap_cell (remap_cell nb).1).2 = None ->
   forall v,
     at3 (data (ds_array nb)) (Z.to_nat (gy - 2)) (Z.to_nat (gx - 2)) b = Some v ->
     exists out,
       out_ds (remap_cell (remap_cell nb).1).1 = Some out /\
       at3 (data out) y x b
       = Some (Np.astype (dtype (ds_array nb)) Np.Float32 v)).
Proof.
  intros Hrect Hp Hgx Hgy.
  set (nb1 := (remap_cell nb).1).
  assert (glt_array nb1 = isub_masked (glt_array nb) (valid_glt (glt_array nb))) as Hg1.
  { unfold nb1, remap_cell. cbn. destruct (fancy_index _ _ _); reflexivity. }
  destruct (remap_cell_keeps nb) as (_ & _ & Hds). fold nb1 in Hds.
  assert (rect2 (glt_array nb1) = true) as Hrect1.
  { rewrite Hg1, (rect2_lengths _ (glt_array nb)); [exact Hrect|].
    apply isub_masked_lengths. }
  assert (at2 (glt_array nb1) y x = Some (gx - 1, gy - 1)) as Hp1.
  { rewrite Hg1, (at2_isub_masked _ y x _ Hp).
    replace (valid_pair (gx, gy)) with true.
    - unfold decrement_pair. cbn.
      rewrite !wrap64_small by (unfold Np.int64_min, Np.int64_max in *; lia).
      reflexivity.
    - symmetry. unfold valid_pair, GLT_NODATA_VALUE. cbn.
      apply andb_true_intro. split; apply negb_true_iff, Z.eqb_neq; lia. }
  split.
  - intros Hone Hb.
    apply (remap_nodata_band nb1 y x (gx - 1, gy - 1) b Hrect1 Hp1).
    + unfold valid_pair, GLT_NODATA_VALUE. cbn.
      destruct Hone as [-> | ->]; cbn; [reflexivity | apply andb_false_r].
    + now rewrite Hds.
  - intros H2x H2y Hok v Hv.
    destruct (remap_cell nb1) as [nb2 e] eqn:Hrun. cbn in Hok. subst e. cbn.
    destruct (remap_valid_band nb1 nb2 y x (gx - 1) (gy - 1) b v Hrun Hrect1 Hp1)
      as (out & Ho & _ & Hat).
    + lia.
    + lia.
    + rewrite Hds. replace (gy - 1 - 1) with (gy - 2) by lia.
      replace (gx - 1 - 1) with (gx - 2) by lia. exact Hv.
    + exists out. rewrite Hds in Hat. auto.
Qed.

(** Cell [0, 1] of the (2, 2) table holds (2, 1): the second run blanks
    it. *)
Lemma remap_rerun_shifts_witness :
  (2 = 1 \/ 1 = 1 ->
   (0 < dim2 (ds_array Sample.nb22))%nat ->
   exists out,
     out_ds (remap_cell (remap_cell Sample.nb22).1).1 = Some out /\
     at3 (data out) 0 1 0 = Some (Np.of_int Np.Float32 fill_value)) /\
  (2 <= 2 -> 2 <= 1 ->
   (remap_cell (remap_cell Sample.nb22).1).2 = None ->
   forall v,
     at3 (data (ds_array Sample.nb22)) (Z.to_nat (1 - 2)) (Z.to_nat (2 - 2)) 0
     = Some v ->
     exists out,
       out_ds (remap_cell (remap_cell Sample.nb22).1).1 = Some out /\
       at3 (data out) 0 1 0
       = Some (Np.astype (dtype (ds_array Sample.nb22)) Np.Float32 v)).
Proof.
  apply (remap_rerun_shifts Sample.nb22 0 1 2 1 0).
  - vm_compute. reflexivity.
  - vm_compute. reflexivity.
  - unfold Np.int64_max. lia.
  - unfold Np.int64_max. lia.
Defined.

(** ** Several ortho cells on one raw pixel *)

(** X5. After a run that did not raise, two ortho cells that hold the
    same pair hold the same band vector: the table may send many cells to
    one RawCube pixel, and each gets its copy. *)
Theorem remap_same_pair_same_vector (nb nb' : notebook) (y1 x1 y2 x2 : nat)
  (p : Z * Z) :
  remap_cell nb = (nb', None) ->
  rect2 (glt_array nb) = true ->
  at2 (glt_array nb) y1 x1 = Some p ->
  at2 (glt_array nb) y2 x2 = Some p ->
  exists out vec,
    out_ds nb' = Some out /\
    at2 (data out) y1 x1 = Some vec /\
    at2 (data out) y2 x2 = Some vec.
Proof.
  intros Hrun Hrect H1 H2.
  destruct (remap_cell_at nb nb' y1 x1 p Hrun Hrect H1) as (out & Ho & _ & Hc1).
  destruct (remap_cell_at nb nb' y2 x2 p Hrun Hrect H2) as (out' & Ho' & _ & Hc2).
  rewrite Ho in Ho'. injection Ho' as <-.
  exists out. destruct (valid_pair p).
  - destruct Hc1 as (r1 & Hr1 & Hat1). destruct Hc2 as (r2 & Hr2 & Hat2).
    rewrite Hr1 in Hr2. injection Hr2 as <-. eauto.
  - eauto.
Qed.

(** Cells [0, 0] and [0, 2] of a (1, 3) table both hold (2, 1). *)
Lemma remap_same_pair_same_vector_witness :
  exists out vec,
    out_ds (remap_cell Sample2.nb_alias).1 = Some out /\
    at2 (data out) 0 0 = Some vec /\
    at2 (data out) 0 2 = Some vec.
Proof.
  apply (remap_same_pair_same_vector Sample2.nb_alias
           (remap_cell Sample2.nb_alias).1 0 0 0 2 (2, 1)).
  - vm_compute. reflexivity.
  - vm_compute. reflexivity.
  - vm_compute. reflexivity.
  - vm_compute. reflexivity.
Defined.

(** ** The coordinate vectors fit the output *)

Lemma shape2_lengths {A B} (a : list (list A)) (b : list (list B)) :
  length <$> a = length <$> b -> shape2 a = shape2 b.
Proof.
  intros H. unfold shape2. f_equal.
  - rewrite <- (length_fmap length a), H. apply length_fmap.
  - destruct a, b; try discriminate; [reflexivity|]. cbn in H. congruence.
Qed.

Lemma build_glt_array_lengths (gx gy : list (list spec_float))
  (g : list (list (Z * Z))) :
  build_glt_array gx gy = Ok g -> length <$> g = length <$> gx.
Proof.
  unfold build_glt_array, stack_last. case_bool_decide as Hs; [|discriminate].
  cbv [mbind result_bind mret result_ret]. intros [= <-].
  rewrite <- (zip_with_zip_lengths gx gy Hs).
  rewrite <- !list_fmap_compose. apply list_fmap_ext.
  intros _ r _. cbn. apply length_map.
Qed.

Lemma remap_out_dims (nb : notebook) :
  exists out,
    out_ds (remap_cell nb).1 = Some out /\
    (dim0 out, dim1 out) = shape2 (glt_array nb).
Proof.
  unfold remap_cell. cbn. destruct (fancy_index _ _ _); cbn; eauto.
Qed.

(** X6. When the paired index array has been built from glt_x and
    glt_y, the coordinate cells return a [lat] as long as the first axis
    of the remap output and a [lon] as long as its second axis. *)
Theorem coords_fit_output (nb nb1 : notebook)
  (origin_x pixel_width row_rot origin_y col_rot pixel_height : spec_float) :
  glt_cell nb = (nb1, None) ->
  exists lat lon out,
    coords_cell [origin_x; pixel_width; row_rot; origin_y; col_rot; pixel_height]
                (glt_x nb) = Ok (lat, lon) /\
    out_ds (remap_cell nb1).1 = Some out /\
    length lat = dim0 out /\
    length lon = dim1 out.
Proof.
  intros Hcell. unfold glt_cell in Hcell.
  destruct (build_glt_array (glt_x nb) (glt_y nb)) as [g|] eqn:Hg; [|discriminate].
  injection Hcell as <-.
  apply build_glt_array_lengths, shape2_lengths in Hg.
  destruct (remap_out_dims (Notebook (glt_x nb) (glt_y nb) g (ds_array nb) (out_ds nb)))
    as (out & Ho & Hdims).
  cbn [glt_array] in Hdims. rewrite Hg in Hdims.
  unfold coords_cell.
  set (GT := [origin_x; pixel_width; row_rot; origin_y; col_rot; pixel_height]).
  destruct (for_range_geo GT 0 1 origin_x pixel_width eq_refl eq_refl
              (shape2 (glt_x nb)).2 0
              (replicate (shape2 (glt_x nb)).2 (S754_zero false)))
    as (lon & Hlon & Hlonlen & _).
  { rewrite length_replicate. lia. }
  destruct (for_range_geo GT 3 5 origin_y pixel_height eq_refl eq_refl
              (shape2 (glt_x nb)).1 0
              (replicate (shape2 (glt_x nb)).1 (S754_zero false)))
    as (lat & Hlat & Hlatlen & _).
  { rewrite length_replicate. lia. }
  exists lat, lon, out. rewrite Hlon. cbv [mbind result_bind]. rewrite Hlat.
  split; [reflexivity|]. split; [exact Ho|].
  rewrite length_replicate in Hlonlen, Hlatlen.
  destruct (shape2 (glt_x nb)) as [n0 n1]. injection Hdims as -> ->. auto.
Qed.

Lemma coords_fit_output_witness :
  exists lat lon out,
    coords_cell Sample.GT_north (glt_x Sample2.nb_loc) = Ok (lat, lon) /\
    out_ds (remap_cell (glt_cell Sample2.nb_loc).1).1 = Some out /\
    length lat = dim0 out /\
    length lon = dim1 out.
Proof.
  apply (coords_fit_output Sample2.nb_loc (glt_cell Sample2.nb_loc).1). reflexivity.
Defined.

(** ** Integer indices through the float detour *)

Lemma digits2_iter (m k : positive) :
  digits2_pos (Pos.iter xO m k) = (digits2_pos m + k)%positive.
Proof.
  induction k as [|k IH] using Pos.peano_ind.
  - cbn. now rewrite Pos.add_1_r.
  - rewrite Pos.iter_succ. cbn. rewrite IH. now rewrite Pos.add_succ_r.
Qed.

Lemma Zpos_iter (m k : positive) :
  Zpos (Pos.iter xO m k) = Zpos m * 2 ^ Zpos k.
Proof.
  induction k as [|k IH] using Pos.peano_ind.
  - cbn. lia.
  - rewrite Pos.iter_succ, Pos2Z.inj_xO, IH, Pos2Z.inj_succ, Z.pow_succ_r; lia.
Qed.

Lemma digits2_bound (m : positive) :
  forall k, 0 <= k -> Zpos m < 2 ^ k -> Zpos (digits2_pos m) <= k.
Proof.
  induction m as [p IH|p IH|]; intros k Hk H.
  - assert (k <> 0) by (intros ->; cbn in H; lia).
    replace k with (Z.succ (k - 1)) in H by lia.
    rewrite Z.pow_succ_r in H by lia.
    cbn [digits2_pos]. rewrite Pos2Z.inj_succ.
    specialize (IH (k - 1)). lia.
  - assert (k <> 0) by (intros ->; cbn in H; lia).
    replace k with (Z.succ (k - 1)) in H by lia.
    rewrite Z.pow_succ_r in H by lia.
    cbn [digits2_pos]. rewrite Pos2Z.inj_succ.
    specialize (IH (k - 1)). lia.
  - assert (k <> 0) by (intros ->; cbn in H; lia). cbn. lia.
Qed.

(** A 64-bit float made from a positive integer below 2^53 is finite and
    holds that integer. *)
Lemma binary_round_int (s : bool) (m : positive) :
  Zpos m < 2 ^ 53 ->
  exists m' e',
    binary_round 53 1024 s m 0 = S754_finite s m' e' /\
    Z.shiftl (Zpos m') e' = Zpos m.
Proof.
  intros Hm.
  pose proof (digits2_bound m 53 ltac:(lia) Hm) as Hd.
  assert (0 < Zpos (digits2_pos m)) as Hd0 by lia.
  destruct (Z.eq_dec (Zpos (digits2_pos m)) 53) as [E|E].
  - exists m, 0. split; [|reflexivity].
    apply (round_to_valid Np.Float64 (S754_finite s m 0)).
    unfold Np.is_valid, valid_binary, bounded, canonical_mantissa, fexp, emin. cbn [Np.prec Np.emax].
    rewrite E. reflexivity.
  - remember (53 - Zpos (digits2_pos m)) as k eqn:Hk.
    destruct k as [|k|k]; try lia.
    exists (Pos.iter xO m k), (- Zpos k). split.
    + transitivity (binary_round 53 1024 s (Pos.iter xO m k) (- Zpos k)).
      * unfold binary_round, shl_align.
        rewrite digits2_iter.
        unfold fexp, emin.
        replace (Z.max (Z.pos (digits2_pos m) + 0 - 53) (3 - 1024 - 53) - 0)
          with (Zneg k) by lia.
        replace (Z.max (Z.pos (digits2_pos m + k) + - Z.pos k - 53) (3 - 1024 - 53) - - Z.pos k)
          with 0 by lia.
        replace (Z.max (Z.pos (digits2_pos m) + 0 - 53) (3 - 1024 - 53)) with (- Zpos k) by lia.
        reflexivity.
      * apply (round_to_valid Np.Float64 (S754_finite s (Pos.iter xO m k) (- Zpos k))).
        unfold Np.is_valid, valid_binary, bounded, canonical_mantissa, fexp, emin.
        cbn [Np.prec Np.emax]. rewrite digits2_iter.
        apply andb_true_intro. split; [apply Z.eqb_eq|apply Z.leb_le]; lia.
    + rewrite Zpos_iter.
      rewrite Z.shiftl_div_pow2 by lia. rewrite Z.opp_involutive.
      apply Z.div_mul. lia.
Qed.

Lemma astype_int_of_int (n : Z) :
  - 2 ^ 53 < n < 2 ^ 53 ->
  Np.astype_int (Np.nan_to_num Np.Float64 GLT_NODATA_VALUE (Np.of_int Np.Float64 n)) = n.
Proof.
  intros Hn. unfold Np.of_int, binary_normalize. cbn [Np.prec Np.emax].
  destruct n as [|m|m]; [reflexivity| |].
  - destruct (binary_round_int false m) as (m' & e' & -> & Hsh); [lia|].
    cbn. rewrite Hsh.
    unfold Np.int64_min, Np.int64_max.
    replace ((- 2 ^ 63 <=? Z.pos m) && (Z.pos m <=? 2 ^ 63 - 1)) with true; [reflexivity|].
    symmetry. apply andb_true_intro. split; [apply Z.leb_le|apply Z.leb_le]; lia.
  - destruct (binary_round_int true m) as (m' & e' & -> & Hsh); [lia|].
    cbn. rewrite Hsh. cbn.
    unfold Np.int64_min, Np.int64_max.
    replace ((- 2 ^ 63 <=? - Z.pos m) && (- Z.pos m <=? 2 ^ 63 - 1)) with true; [reflexivity|].
    symmetry. apply andb_true_intro. split; [apply Z.leb_le|apply Z.leb_le]; lia.
Qed.

(** X7. Building the paired index array loses no index: where glt_x and
    glt_y hold the integers a and b as 64-bit floats (any integers of
    magnitude below 2^53, so every 32-bit index), [glt_array] holds the
    pair (a, b). *)
Theorem build_glt_array_keeps_integers (gx gy : list (list spec_float))
  (g : list (list (Z * Z))) (y x : nat) (a b : Z) :
  build_glt_array gx gy = Ok g ->
  at2 gx y x = Some (Np.of_int Np.Float64 a) ->
  at2 gy y x = Some (Np.of_int Np.Float64 b) ->
  - 2 ^ 53 < a < 2 ^ 53 ->
  - 2 ^ 53 < b < 2 ^ 53 ->
  at2 g y x = Some (a, b).
Proof.
  intros Hg Hx Hy Ha Hb.
  rewrite (build_glt_array_at gx gy g y x _ _ Hg Hx Hy).
  unfold glt_entry. cbn [fst snd].
  now rewrite (astype_int_of_int a Ha), (astype_int_of_int b Hb).
Qed.

(** Cell [0, 1] of the location arrays holds 2 and 1. *)
Lemma build_glt_array_keeps_integers_witness :
  at2 (glt_array (glt_cell Sample2.nb_loc).1) 0 1 = Some (2, 1).
Proof.
  apply (build_glt_array_keeps_integers (glt_x Sample2.nb_loc) (glt_y Sample2.nb_loc)
           (glt_array (glt_cell Sample2.nb_loc).1) 0 1 2 1).
  - reflexivity.
  - reflexivity.
  - reflexivity.
  - lia.
  - lia.
Defined.

(** ** Blanking the fill value *)

Lemma at3_map {A B} (f : A -> B) (a : list (list (list A))) i j k :
  at3 (map (map (map f)) a) i j k = f <$> at3 a i j k.
Proof.
  unfold at3. rewrite at2_map.
  destruct (at2 a i j) as [p|]; cbn; [apply list_lookup_fmap | reflexivity].
Qed.

(** X8. After the remap cell and the cell that blanks the fill value,
    every band of every ortho cell where glt_x == 0 or glt_y == 0 is NaN. *)
Theorem nodata_cell_blanked (nb : notebook) (y x : nat) (gx gy : Z) (b : nat) :
  rect2 (glt_array nb) = true ->
  at2 (glt_array nb) y x = Some (gx, gy) ->
  gx = 0 \/ gy = 0 ->
  (b < dim2 (ds_array nb))%nat ->
  exists out,
    out_ds (remap_cell nb).1 = Some out /\
    at3 (data (fill_to_nan out)) y x b = Some Np.nan.
Proof.
  intros Hrect Hp Hz Hb.
  assert (valid_pair (gx, gy) = false) as Hv.
  { unfold valid_pair, GLT_NODATA_VALUE. cbn.
    destruct Hz as [-> | ->]; cbn; [reflexivity | apply andb_false_r]. }
  destruct (remap_nodata_band nb y x (gx, gy) b Hrect Hp Hv Hb) as (out & Ho & Hat).
  destruct (remap_out_dtype nb) as (out' & Ho' & Hd).
  rewrite Ho in Ho'. injection Ho' as <-.
  exists out. split; [exact Ho|].
  unfold fill_to_nan. cbn [data]. rewrite at3_map, Hat. cbn.
  unfold blank_fill. rewrite Hd. reflexivity.
Qed.

Lemma nodata_cell_blanked_witness :
  exists out,
    out_ds (remap_cell Sample.nb22).1 = Some out /\
    at3 (data (fill_to_nan out)) 1 1 0 = Some Np.nan.
Proof.
  apply (nodata_cell_blanked Sample.nb22 1 1 0 0 0).
  - vm_compute. reflexivity.
  - vm_compute. reflexivity.
  - left. reflexivity.
  - vm_compute. lia.
Defined.

(** X9. The same two cells on a valid cell: the copied value is kept
    when it differs from the fill value and becomes NaN when it equals
    it, so a RawCube value of -9999 cannot be told from no data
    afterwards. *)
Theorem valid_cell_blanked_only_on_fill (nb nb' : notebook) (y x : nat)
  (gx gy : Z) (b : nat) (v : spec_float) :
  remap_cell nb = (nb', None) ->
  rect2 (glt_array nb) = true ->
  at2 (glt_array nb) y x = Some (gx, gy) ->
  1 <= gx <= Np.int64_max ->
  1 <= gy <= Np.int64_max ->
  at3 (data (ds_array nb)) (Z.to_nat (gy - 1)) (Z.to_nat (gx - 1)) b = Some v ->
  exists out,
    out_ds nb' = Some out /\
    let w := Np.astype (dtype (ds_array nb)) Np.Float32 v in
    (Np.equal w (Np.of_int Np.Float32 fill_value) = false ->
     at3 (data (fill_to_nan out)) y x b = Some w) /\
    (Np.equal w (Np.of_int Np.Float32 fill_value) = true ->
     at3 (data (fill_to_nan out)) y x b = Some Np.nan).
Proof.
  intros Hrun Hrect Hp Hgx Hgy Hv.
  destruct (remap_valid_band nb nb' y x gx gy b v Hrun Hrect Hp Hgx Hgy Hv)
    as (out & Ho & Hd & Hat).
  exists out. split; [exact Ho|]. cbv zeta.
  unfold fill_to_nan. cbn [data]. rewrite at3_map, Hat.
  unfold blank_fill. rewrite Hd.
  split; intros Hw; cbn [fmap option_fmap option_map]; rewrite Hw; reflexivity.
Qed.

(** RawCube[0, 1, 1] holds -9999 and cell [0, 1] points at it. *)
Lemma valid_cell_blanked_only_on_fill_witness :
  exists out,
    out_ds (remap_cell Sample2.nb_fill).1 = Some out /\
    let w := Np.astype (dtype (ds_array Sample2.nb_fill)) Np.Float32
               (Np.of_int Np.Float32 fill_value) in
    (Np.equal w (Np.of_int Np.Float32 fill_value) = false ->
     at3 (data (fill_to_nan out)) 0 1 1 = Some w) /\
    (Np.equal w (Np.of_int Np.Float32 fill_value) = true ->
     at3 (data (fill_to_nan out)) 0 1 1 = Some Np.nan).
Proof.
  apply (valid_cell_blanked_only_on_fill Sample2.nb_fill
           (remap_cell Sample2.nb_fill).1 0 1 2 1 1
           (Np.of_int Np.Float32 fill_value)).
  - vm_compute. reflexivity.
  - vm_compute. reflexivity.
  - vm_compute. reflexivity.
  - unfold Np.int64_max. lia.
  - unfold Np.int64_max. lia.
  - vm_compute. reflexivity.
Defined.

(** ** Masking the bad wavelengths, again and before the remap *)

Lemma mask_band_idem (g v : spec_float) :
  mask_band g (mask_band g v) = mask_band g v.
Proof. unfold mask_band. now destruct (Np.eq_zero g). Qed.

Lemma zip_with_mask_idem (good : list spec_float) :
  forall p,
    zip_with mask_band good (zip_with mask_band good p) = zip_with mask_band good p.
Proof.
  induction good as [|g good IH]; intros [|v p]; cbn; try reflexivity.
  now rewrite mask_band_idem, IH.
Qed.

Lemma mask_good_wavelengths_inv (a a' : ndarray3) (good : list spec_float) :
  mask_good_wavelengths a good = Ok a' ->
  length good = dim2 a /\
  a' = Ndarray3 (dtype a) (dim0 a) (dim1 a) (dim2 a)
         (map (map (zip_with mask_band good)) (data a)).
Proof.
  unfold mask_good_wavelengths. case_bool_decide; [|discriminate].
  intros [= <-]. auto.
Qed.

(** X10. Masking the bad wavelengths keeps the element type and the
    shape of the cube, the declared one and that of the data, and masking
    a second time with the same good_wavelengths changes nothing. *)
Theorem mask_good_wavelengths_idempotent (a a' : ndarray3)
  (good : list spec_float) :
  mask_good_wavelengths a good = Ok a' ->
  mask_good_wavelengths a' good = Ok a' /\
  dtype a' = dtype a /\
  (dim0 a', dim1 a', dim2 a') = (dim0 a, dim1 a, dim2 a) /\
  (has_shape3 a = true -> has_shape3 a' = true).
Proof.
  intros H. apply mask_good_wavelengths_inv in H as [Hlen ->].
  split; [|split; [reflexivity|split; [reflexivity|]]].
  - unfold mask_good_wavelengths. cbn [dim0 dim1 dim2 dtype data].
    rewrite bool_decide_eq_true_2 by exact Hlen. do 2 f_equal.
    rewrite <- list_fmap_compose. apply list_fmap_ext. intros _ r _. cbn.
    rewrite <- list_fmap_compose. apply list_fmap_ext. intros _ p _. cbn.
    apply zip_with_mask_idem.
  - unfold has_shape3. cbn [dim0 dim1 dim2 data]. intros Hs.
    apply andb_prop in Hs as [H0 Hrows]. apply andb_true_intro.
    split; [now rewrite length_map|].
    apply forallb_Forall, Forall_fmap. apply forallb_Forall in Hrows.
    eapply Forall_impl; [exact Hrows|]. intros r Hr. cbn.
    apply andb_prop in Hr as [H1 Hcells]. apply andb_true_intro.
    split; [now rewrite length_map|].
    apply forallb_Forall, Forall_fmap. apply forallb_Forall in Hcells.
    eapply Forall_impl; [exact Hcells|]. intros p Hp. cbn.
    apply Nat.eqb_eq in Hp. apply Nat.eqb_eq.
    rewrite length_zip_with. lia.
Qed.

Lemma mask_good_wavelengths_idempotent_witness :
  mask_good_wavelengths
    (Ndarray3 Np.Float32 1 1 3
       [[[Np.of_int Np.Float32 5; Np.nan; Np.of_int Np.Float32 7]]]) Sample.good101
  = Ok (Ndarray3 Np.Float32 1 1 3
          [[[Np.of_int Np.Float32 5; Np.nan; Np.of_int Np.Float32 7]]]) /\
  Np.Float32 = dtype Sample.cube3 /\
  (1%nat, 1%nat, 3%nat) = (dim0 Sample.cube3, dim1 Sample.cube3, dim2 Sample.cube3) /\
  (has_shape3 Sample.cube3 = true ->
   has_shape3 (Ndarray3 Np.Float32 1 1 3
                 [[[Np.of_int Np.Float32 5; Np.nan; Np.of_int Np.Float32 7]]]) = true).
Proof.
  apply (mask_good_wavelengths_idempotent Sample.cube3
           (Ndarray3 Np.Float32 1 1 3
              [[[Np.of_int Np.Float32 5; Np.nan; Np.of_int Np.Float32 7]]])
           Sample.good101).
  reflexivity.
Defined.

Lemma mapM_Forall2_Ok {A B} (f : A -> result B) (l : list A) (rs : list B) :
  Forall2 (fun a r => f a = Ok r) l rs -> mapM f l = Ok rs.
Proof.
  induction 1 as [|a r l rs Ha _ IH]; cbn; [reflexivity|].
  rewrite Ha. cbn. rewrite IH. reflexivity.
Qed.

Lemma take_row_map (a : ndarray3) (f : list spec_float -> list spec_float)
  (iy ix : Z) (r : list spec_float) :
  take_row a iy ix = Ok r ->
  take_row (Ndarray3 (dtype a) (dim0 a) (dim1 a) (dim2 a) (map (map f) (data a)))
           iy ix = Ok (f r).
Proof.
  unfold take_row. cbn [dim0 dim1 data].
  destruct (norm_index (dim0 a) iy) as [y|]; [|discriminate].
  destruct (norm_index (dim1 a) ix) as [x|]; [|discriminate].
  cbv [mbind result_bind]. rewrite at2_map.
  destruct (at2 (data a) y x) as [v|]; [|discriminate].
  intros [= <-]. reflexivity.
Qed.

Lemma astype_mask_band (src : Np.dtype) (good : list spec_float) :
  forall r,
    map (Np.astype src Np.Float32) (zip_with mask_band good r)
    = zip_with mask_band good (map (Np.astype src Np.Float32) r).
Proof.
  induction good as [|g good IH]; intros [|v r]; cbn; try reflexivity.
  rewrite IH. f_equal. unfold mask_band.
  destruct (Np.eq_zero g); [|reflexivity]. now destruct src.
Qed.

Lemma remap_cell_unfold (nb : notebook) :
  remap_cell nb
  = let g := glt_array nb in
    let ds := ds_array nb in
    let sel := select_masked (valid_glt g) (isub_masked g (valid_glt g)) in
    let out0 := zeros_plus_fill (shape2 g).1 (shape2 g).2 (dim2 ds) in
    match fancy_index ds (map snd sel) (map fst sel) with
    | Ok rows =>
        (Notebook (glt_x nb) (glt_y nb) (isub_masked g (valid_glt g)) ds
           (Some (setitem_masked out0 (valid_glt g) (dtype ds) rows)), None)
    | Raise e =>
        (Notebook (glt_x nb) (glt_y nb) (isub_masked g (valid_glt g)) ds (Some out0),
         Some e)
    end.
Proof. reflexivity. Qed.

(** X11. Masking the bad wavelengths on RawCube before the remap and
    masking them on the remap output give the same band vector in every
    valid cell. They differ in the cells without data: masked before, such
    a cell holds the fill value in every band; masked after, its bad bands
    are NaN. *)
Theorem mask_before_or_after_remap (nb nb1 : notebook) (good : list spec_float)
  (ds' : ndarray3) (y x : nat) (p : Z * Z) :
  mask_good_wavelengths (ds_array nb) good = Ok ds' ->
  remap_cell nb = (nb1, None) ->
  rect2 (glt_array nb) = true ->
  at2 (glt_array nb) y x = Some p ->
  exists out out_before out_after,
    out_ds nb1 = Some out /\
    remap_cell (with_ds_array nb ds')
    = (Notebook (glt_x nb1) (glt_y nb1) (glt_array nb1) ds' (Some out_before), None) /\
    mask_good_wavelengths out good = Ok out_after /\
    if valid_pair p
    then at2 (data out_before) y x = at2 (data out_after) y x
    else at2 (data out_before) y x = Some (filled_cell (dim2 (ds_array nb))) /\
         at2 (data out_after) y x
         = Some (zip_with mask_band good (filled_cell (dim2 (ds_array nb)))).
Proof.
  intros Hmask Hrun Hrect Hp.
  apply mask_good_wavelengths_inv in Hmask as [Hlen Hds'].
  pose proof Hrun as Hrun0.
  apply remap_cell_ok in Hrun as (rows & Hrows & Hnb1).
  set (g := glt_array nb) in *. set (ds := ds_array nb) in *.
  set (f := zip_with mask_band good) in *.
  set (sel := select_masked (valid_glt g) (isub_masked g (valid_glt g))) in *.
  assert (fancy_index ds' (map snd sel) (map fst sel) = Ok (map f rows)) as Hrows'.
  { unfold fancy_index. rewrite zip_snd_fst. apply mapM_Forall2_Ok.
    apply Forall2_fmap_l, Forall2_fmap_r.
    eapply Forall2_impl; [exact Hrows|]. intros q r Hr. cbn.
    rewrite Hds'. now apply take_row_map. }
  assert (remap_cell (with_ds_array nb ds')
          = (Notebook (glt_x nb) (glt_y nb) (isub_masked g (valid_glt g)) ds'
               (Some (setitem_masked
                        (zeros_plus_fill (shape2 g).1 (shape2 g).2 (dim2 ds'))
                        (valid_glt g) (dtype ds') (map f rows))), None)) as Hrun'.
  { rewrite remap_cell_unfold. unfold with_ds_array.
    cbn [glt_array ds_array glt_x glt_y]. fold g. fold sel.
    rewrite Hrows'. reflexivity. }
  destruct (remap_cell_at nb nb1 y x p Hrun0 Hrect Hp) as (out & Ho & Hd & Hcell).
  destruct (remap_cell_at (with_ds_array nb ds') _ y x p Hrun' Hrect Hp)
    as (outb & Hob & _ & Hcellb).
  cbn [out_ds] in Hob. injection Hob as Hob.
  cbn [ds_array with_ds_array] in Hcellb.
  assert (dim2 out = dim2 ds) as Hdim2.
  { rewrite Hnb1 in Ho. cbn in Ho. injection Ho as <-. reflexivity. }
  assert (mask_good_wavelengths out good
          = Ok (Ndarray3 (dtype out) (dim0 out) (dim1 out) (dim2 out)
                  (map (map f) (data out)))) as Hafter.
  { unfold mask_good_wavelengths.
    rewrite bool_decide_eq_true_2 by (now rewrite Hdim2). reflexivity. }
  eexists out, outb, _. split; [exact Ho|]. split.
  { rewrite Hrun', <- Hob, Hnb1. reflexivity. }
  split; [exact Hafter|]. cbn [data]. rewrite at2_map.
  assert (dtype ds' = dtype ds /\ dim2 ds' = dim2 ds) as [Hdt Hd2].
  { rewrite Hds'. auto. }
  rewrite Hdt, Hd2 in Hcellb.
  destruct (valid_pair p).
  - destruct Hcell as (r & Hr & Hat). destruct Hcellb as (r' & Hr' & Hatb).
    rewrite Hds' in Hr'. rewrite (take_row_map ds f _ _ r Hr) in Hr'.
    injection Hr' as <-. rewrite Hat, Hatb. cbn. f_equal.
    apply astype_mask_band.
  - rewrite Hcell. cbn. auto.
Qed.

(** [good_wavelengths = [1, 0]] on the (2, 2) table, at the valid cell
    [0, 1]. *)
Lemma mask_before_or_after_remap_witness :
  exists out out_before out_after,
    out_ds (remap_cell Sample.nb22).1 = Some out /\
    remap_cell (with_ds_array Sample.nb22
                  (Ndarray3 Np.Float32 4 3 2
                     (map (map (zip_with mask_band Sample2.good10))
                        (data Sample.cube32))))
    = (Notebook (glt_x (remap_cell Sample.nb22).1) (glt_y (remap_cell Sample.nb22).1)
         (glt_array (remap_cell Sample.nb22).1)
         (Ndarray3 Np.Float32 4 3 2
            (map (map (zip_with mask_band Sample2.good10)) (data Sample.cube32)))
         (Some out_before), None) /\
    mask_good_wavelengths out Sample2.good10 = Ok out_after /\
    if valid_pair (2, 1)
    then at2 (data out_before) 0 1 = at2 (data out_after) 0 1
    else at2 (data out_before) 0 1
         = Some (filled_cell (dim2 (ds_array Sample.nb22))) /\
         at2 (data out_after) 0 1
         = Some (zip_with mask_band Sample2.good10
                   (filled_cell (dim2 (ds_array Sample.nb22)))).
Proof.
  apply (mask_before_or_after_remap Sample.nb22 (remap_cell Sample.nb22).1
           Sample2.good10 _ 0 1 (2, 1)).
  - reflexivity.
  - vm_compute. reflexivity.
  - vm_compute. reflexivity.
  - vm_compute. reflexivity.
Defined.

(** ** A geotransform with too few coefficients *)

Lemma for_range_first_raise (body : list spec_float -> nat -> result (list spec_float))
  (arr : list spec_float) (start n : nat) (e : exn) :
  body arr start = Raise e -> for_range body arr start (S n) = Raise e.
Proof. intros H. cbn. rewrite H. reflexivity. Qed.

Lemma geo_step_missing (GT : list spec_float) (o w : nat)
  (arr : list spec_float) (i : nat) :
  GT !! o = None \/ GT !! w = None ->
  geo_step GT o w arr i = Raise IndexError.
Proof.
  intros H. unfold geo_step, getitem.
  destruct (GT !! o); [|reflexivity].
  destruct H as [H|H]; [discriminate|]. rewrite H. reflexivity.
Qed.

(** X12. The coordinate cells check nothing about the geotransform: with
    fewer than six coefficients and a grid that is not empty they raise
    IndexError, from the first round of the loop that reads a missing
    one. *)
Theorem coords_short_geotransform (GT : list spec_float)
  (gx : list (list spec_float)) :
  (length GT < 6)%nat ->
  (0 < (shape2 gx).1)%nat ->
  (0 < (shape2 gx).2)%nat ->
  coords_cell GT gx = Raise IndexError.
Proof.
  intros Hlen Hy Hx. unfold coords_cell.
  destruct (shape2 gx).2 as [|dim_x]; [lia|].
  destruct (shape2 gx).1 as [|dim_y]; [lia|]. cbn [fst snd].
  destruct (GT !! 0%nat) as [g0|] eqn:H0;
    [destruct (GT !! 1%nat) as [g1|] eqn:H1|].
  - destruct (for_range_geo GT 0 1 g0 g1 H0 H1 (S dim_x) 0
                (replicate (S dim_x) (S754_zero false)))
      as (lon & Hlon & _).
    { rewrite length_replicate. lia. }
    rewrite Hlon. cbv [mbind result_bind].
    rewrite (for_range_first_raise _ _ _ _ IndexError); [reflexivity|].
    apply geo_step_missing. right. apply lookup_ge_None. lia.
  - rewrite (for_range_first_raise (geo_step GT 0 1) _ _ _ IndexError);
      [reflexivity|].
    apply geo_step_missing. now right.
  - rewrite (for_range_first_raise (geo_step GT 0 1) _ _ _ IndexError);
      [reflexivity|].
    apply geo_step_missing. now left.
Qed.

(** Five coefficients on a grid of shape (2, 3). *)
Lemma coords_short_geotransform_witness :
  coords_cell [Sample.f64 (-62); Sample.half64; Sample.f64 0; Sample.f64 (-39);
               Sample.f64 0] Sample.glt_x23
  = Raise IndexError.
Proof.
  apply coords_short_geotransform; vm_compute; lia.
Defined.

(** ** The local file name of a granule *)

Lemma string_app_assoc (a b c : string) :
  String.append (String.append a b) c = String.append a (String.append b c).
Proof. induction a as [|ch a IH]; cbn; [reflexivity | now rewrite IH]. Qed.

Lemma split_on_cons (sep : ascii) (s : string) :
  exists h t, split_on sep s = h :: t.
Proof.
  destruct s as [|c s]; cbn; [eauto|].
  destruct (Ascii.eqb c sep); [eauto|]. destruct (split_on sep s); eauto.
Qed.

Lemma join_on_cons2 (sep : ascii) (p q : string) (l : list string) :
  join_on sep (p :: q :: l)
  = String.append p (String sep (join_on sep (q :: l))).
Proof. reflexivity. Qed.

Lemma join_split_on (sep : ascii) (s : string) :
  join_on sep (split_on sep s) = s.
Proof.
  induction s as [|c s IH]; [reflexivity|]. cbn [split_on].
  destruct (split_on_cons sep s) as (h & t & Hs). rewrite Hs in *.
  destruct (Ascii.eqb c sep) eqn:E.
  - apply Ascii.eqb_eq in E as ->. rewrite join_on_cons2, IH. reflexivity.
  - destruct t as [|q t]; [cbn in *; now rewrite IH|].
    rewrite join_on_cons2 in *. cbn [String.append]. now rewrite IH.
Qed.

Lemma split_on_no_sep (sep : ascii) (s : string) :
  Forall (fun part => has_char sep part = false) (split_on sep s).
Proof.
  induction s as [|c s IH]; cbn [split_on]; [repeat constructor|].
  destruct (Ascii.eqb c sep) eqn:E; [constructor; [reflexivity | exact IH]|].
  destruct (split_on sep s) as [|h t]; [repeat constructor; cbn; now rewrite E|].
  inversion IH as [|? ? Hh Ht]; subst. constructor; [|exact Ht].
  cbn. now rewrite E, Hh.
Qed.

Lemma join_on_snoc (sep : ascii) (l : list string) (last_part : string) :
  exists dir,
    join_on sep (l ++ [last_part]) = String.append dir last_part /\
    (dir = EmptyString \/
     exists d, dir = String.append d (String sep EmptyString)).
Proof.
  induction l as [|p l (dir & Hj & Hdir)]; [exists EmptyString; auto|].
  exists (String.append p (String sep dir)). split.
  - change ((p :: l) ++ [last_part]) with (p :: (l ++ [last_part])).
    cbn [join_on]. destruct (l ++ [last_part]) eqn:E.
    + destruct l; discriminate.
    + rewrite Hj, string_app_assoc. reflexivity.
  - right. destruct Hdir as [-> | (d & ->)].
    + exists p. reflexivity.
    + exists (String.append p (String sep d)).
      rewrite string_app_assoc. reflexivity.
Qed.

(** X13. The download cell always finds a granule asset id, whatever
    the URL: the URL is some directory part followed by the id, the id
    holds no slash, and the directory part is empty or ends with a slash;
    the local path is ../../data/ followed by the id. Joining the pieces
    of the split with slashes gives the URL back. *)
Theorem asset_id_is_last_component (url : string) :
  exists dir asset,
    granule_asset_id url = Ok asset /\
    local_path url = Ok (String.append "../../data/" asset) /\
    url = String.append dir asset /\
    has_char slash asset = false /\
    (dir = EmptyString \/ exists d, dir = String.append d "/") /\
    join_on slash (split_on slash url) = url.
Proof.
  pose proof (join_split_on slash url) as Hjoin.
  pose proof (split_on_no_sep slash url) as Hno.
  destruct (split_on_cons slash url) as (h & t & Hs).
  assert (exists l asset, split_on slash url = l ++ [asset]) as (l & asset & Hl).
  { rewrite Hs. destruct (last (h :: t)) as [asset|] eqn:E.
    - apply last_Some in E as [l El]. eauto.
    - apply last_None in E. discriminate. }
  assert (granule_asset_id url = Ok asset) as Hid.
  { unfold granule_asset_id, norm_index. rewrite Hl, length_app. cbn [length].
    replace ((0 <=? -1) && (-1 <? Z.of_nat (length l + 1))) with false by reflexivity.
    replace ((- Z.of_nat (length l + 1) <=? -1) && (-1 <? 0)) with true
      by (symmetry; apply andb_true_intro; split; [apply Z.leb_le; lia | reflexivity]).
    cbv [mbind result_bind].
    replace (Z.to_nat (-1 + Z.of_nat (length l + 1))) with (length l) by lia.
    now rewrite list_lookup_middle. }
  destruct (join_on_snoc slash l asset) as (dir & Hdir & Hend).
  exists dir, asset. split; [exact Hid|]. split.
  { unfold local_path. rewrite Hid. reflexivity. }
  split; [now rewrite <- Hjoin, Hl, Hdir|]. split.
  { rewrite Hl in Hno. apply Forall_app in Hno as [_ Hno].
    now inversion Hno. }
  split; [exact Hend | exact Hjoin].
Qed.


(** ** Choosing the nearest band *)

(** IEEE 754 comparison of two floats that are not NaN is the order of
    their keys. *)
Lemma SFltb_key (a b : spec_float) :
  Np.isnan a = false -> Np.isnan b = false ->
  (SFltb a b = true <-> key_lt (order_key a) (order_key b)).
Proof.
  intros Ha Hb. unfold SFltb, key_lt.
  destruct a as [sa|sa| |sa ma ea]; try discriminate;
    destruct b as [sb|sb| |sb mb eb]; try discriminate;
    try destruct sa; try destruct sb; cbn;
    try (split; intros H; [try discriminate; lia | try reflexivity; lia]).
  - change (Pos.compare_cont Eq ma mb) with (Pos.compare ma mb).
    destruct (Z.compare_spec ea eb); cbn;
      [destruct (Pos.compare_spec ma mb); cbn|..];
      (split; intros H'; [try discriminate; lia | try reflexivity; lia]).
  - change (Pos.compare_cont Eq ma mb) with (Pos.compare ma mb).
    destruct (Z.compare_spec ea eb); cbn;
      [destruct (Pos.compare_spec ma mb); cbn|..];
      (split; intros H'; [try discriminate; lia | try reflexivity; lia]).
Qed.

Lemma SFltb_key_false (a b : spec_float) :
  Np.isnan a = false -> Np.isnan b = false ->
  (SFltb a b = false <-> ~ key_lt (order_key a) (order_key b)).
Proof.
  intros Ha Hb. rewrite <- (SFltb_key a b Ha Hb).
  destruct (SFltb a b); split; intros; congruence.
Qed.

Ltac key_facts :=
  repeat match goal with
  | H : SFltb ?a ?b = true |- _ =>
      apply (SFltb_key a b) in H; [|assumption|assumption]
  | H : SFltb ?a ?b = false |- _ =>
      apply (SFltb_key_false a b) in H; [|assumption|assumption]
  | |- SFltb ?a ?b = true => apply (SFltb_key a b); [assumption|assumption|]
  | |- SFltb ?a ?b = false => apply (SFltb_key_false a b); [assumption|assumption|]
  end.

Ltac key_lia :=
  key_facts; unfold key_lt in *;
  repeat match goal with
  | |- context [order_key ?v] => destruct (order_key v) as [[? ?] ?]
  end;
  cbn [fst snd] in *; lia.

Lemma SFltb_irrefl (v : spec_float) : Np.isnan v = false -> SFltb v v = false.
Proof. intros Hv. key_lia. Qed.

Lemma SFltb_below (v best u : spec_float) :
  Np.isnan v = false -> Np.isnan best = false -> Np.isnan u = false ->
  SFltb v best = true -> SFltb u best = false ->
  SFltb u v = false /\ SFltb v u = true.
Proof. intros Hv Hb Hu H1 H2. split; key_lia. Qed.

Lemma argmin_from_spec (a : list spec_float) :
  forall (seen : list spec_float) (best_i : nat) (best : spec_float),
    Forall (fun v => Np.isnan v = false) (seen ++ a) ->
    seen !! best_i = Some best ->
    (forall k v, seen !! k = Some v ->
                 SFltb v best = false /\ ((k < best_i)%nat -> SFltb best v = true)) ->
    exists br,
      (seen ++ a) !! argmin_from best_i best (length seen) a = Some br /\
      forall k v, (seen ++ a) !! k = Some v ->
                  SFltb v br = false /\
                  ((k < argmin_from best_i best (length seen) a)%nat ->
                   SFltb br v = true).
Proof.
  induction a as [|v a IH]; intros seen best_i best Hnan Hbest Hseen.
  - rewrite app_nil_r in *. cbn. eauto.
  - assert (Np.isnan v = false) as Hv.
    { rewrite Forall_app in Hnan. destruct Hnan as [_ Hn]. now inversion Hn. }
    assert (Np.isnan best = false) as Hb.
    { rewrite Forall_app in Hnan. destruct Hnan as [Hn _].
      rewrite Forall_forall in Hn. eapply Hn, list_elem_of_lookup_2, Hbest. }
    assert (forall k u, seen !! k = Some u -> Np.isnan u = false) as Hu.
    { intros k u Hk. rewrite Forall_app in Hnan. destruct Hnan as [Hn _].
      rewrite Forall_forall in Hn. eapply Hn, list_elem_of_lookup_2, Hk. }
    pose proof (lookup_lt_Some _ _ _ Hbest) as Hlt.
    cbn [argmin_from]. rewrite (cons_middle v seen a), app_assoc in *.
    replace (S (length seen)) with (length (seen ++ [v]))
      by (rewrite length_app; cbn; lia).
    destruct (SFltb v best) eqn:Hvb.
    + apply IH; [exact Hnan | apply list_lookup_middle; reflexivity |].
      intros k u Hk.
      destruct (decide (k < length seen)%nat) as [Hk'|Hk'].
      * rewrite lookup_app_l in Hk by exact Hk'.
        destruct (Hseen k u Hk) as [H1 _].
        destruct (SFltb_below v best u Hv Hb (Hu k u Hk) Hvb H1). auto.
      * assert (k = length seen) as ->.
        { apply lookup_lt_Some in Hk. rewrite length_app in Hk. cbn in Hk. lia. }
        rewrite list_lookup_middle in Hk by reflexivity. injection Hk as <-.
        split; [now apply SFltb_irrefl | lia].
    + apply IH; [exact Hnan | now rewrite lookup_app_l |].
      intros k u Hk.
      destruct (decide (k < length seen)%nat) as [Hk'|Hk'].
      * rewrite lookup_app_l in Hk by exact Hk'. now apply Hseen.
      * assert (k = length seen) as ->.
        { apply lookup_lt_Some in Hk. rewrite length_app in Hk. cbn in Hk. lia. }
        rewrite list_lookup_middle in Hk by reflexivity. injection Hk as <-.
        split; [exact Hvb | lia].
Qed.

Lemma nanargmin_spec (a : list spec_float) (r : nat) :
  nanargmin a = Ok r ->
  exists br,
    (map nan_to_inf a) !! r = Some br /\
    forall k v, (map nan_to_inf a) !! k = Some v ->
                SFltb v br = false /\ ((k < r)%nat -> SFltb br v = true).
Proof.
  unfold nanargmin. destruct (forallb Np.isnan a); [discriminate|].
  unfold argmin. destruct (map nan_to_inf a) as [|v0 rest] eqn:E; [discriminate|].
  intros [= <-].
  assert (Forall (fun v => Np.isnan v = false) (v0 :: rest)) as Hnan.
  { rewrite <- E. apply Forall_fmap, Forall_true. intros v. cbn.
    unfold nan_to_inf. now destruct v. }
  apply (argmin_from_spec rest [v0] 0%nat v0 Hnan eq_refl).
  intros [|k] u Hk; [|discriminate]. injection Hk as <-.
  split; [|lia]. apply SFltb_irrefl. now inversion Hnan.
Qed.

Lemma nan_to_inf_id (v : spec_float) : Np.isnan v = false -> nan_to_inf v = v.
Proof. unfold nan_to_inf. now intros ->. Qed.

(** X14. When the band selection returns an index and some band has a
    finite distance to the target, the band at that index is a nearest
    one: its distance is a number, no band is strictly nearer, and every
    band before it is strictly farther (ties go to the lowest index; bands
    whose distance is NaN are passed over). *)
Theorem nearest_band_is_nearest (d : Np.dtype) (wavelengths : list spec_float)
  (x : Z) (i : nat) :
  nearest_band d wavelengths x = Ok i ->
  (exists j wj, wavelengths !! j = Some wj /\ is_finite (distance d x wj) = true) ->
  exists wi,
    wavelengths !! i = Some wi /\
    Np.isnan (distance d x wi) = false /\
    forall j wj,
      wavelengths !! j = Some wj ->
      Np.isnan (distance d x wj) = false ->
      SFltb (distance d x wj) (distance d x wi) = false /\
      ((j < i)%nat -> SFltb (distance d x wi) (distance d x wj) = true).
Proof.
  intros Hi (j0 & w0 & Hj0 & Hfin). unfold nearest_band in Hi.
  apply nanargmin_spec in Hi as (br & Hbr & Hmin).
  rewrite !list_lookup_fmap in Hbr.
  destruct (wavelengths !! i) as [wi|] eqn:Hwi; [|discriminate].
  cbn in Hbr. injection Hbr as <-.
  exists wi. split; [reflexivity|].
  assert (forall j wj, wavelengths !! j = Some wj ->
                       map nan_to_inf (map (distance d x) wavelengths) !! j
                       = Some (nan_to_inf (distance d x wj))) as Hlook.
  { intros j wj Hj. now rewrite !list_lookup_fmap, Hj. }
  assert (Np.isnan (distance d x wi) = false) as Hnan.
  { destruct (Np.isnan (distance d x wi)) eqn:E; [|reflexivity].
    destruct (Hmin j0 _ (Hlook j0 w0 Hj0)) as [H0 _].
    unfold nan_to_inf in H0. rewrite E in H0.
    destruct (distance d x w0) as [s|s| |s m e]; try discriminate; destruct s; discriminate. }
  split; [exact Hnan|].
  intros j wj Hj Hjnan.
  pose proof (Hmin j _ (Hlook j wj Hj)) as H.
  now rewrite !nan_to_inf_id in H by assumption.
Qed.

(** Target 650 among 381, NaN, 560, 640, 660: bands 3 and 4 are both 10
    away, band 3 is returned. *)
Lemma nearest_band_is_nearest_witness :
  exists wi,
    Sample2.wavelengths5 !! 3%nat = Some wi /\
    Np.isnan (distance Np.Float32 650 wi) = false /\
    forall j wj,
      Sample2.wavelengths5 !! j = Some wj ->
      Np.isnan (distance Np.Float32 650 wj) = false ->
      SFltb (distance Np.Float32 650 wj) (distance Np.Float32 650 wi) = false /\
      ((j < 3)%nat ->
       SFltb (distance Np.Float32 650 wi) (distance Np.Float32 650 wj) = true).
Proof.
  apply (nearest_band_is_nearest Np.Float32 Sample2.wavelengths5 650 3).
  - vm_compute. reflexivity.
  - exists 0%nat, (Np.of_int Np.Float32 381). split; vm_compute; reflexivity.
Defined.

Lemma shr_1_nonneg (mrs : shr_record) : 0 <= shr_m mrs -> 0 <= shr_m (shr_1 mrs).
Proof.
  destruct mrs as [m r s]. cbn. destruct m as [|[p|p|]|p]; cbn; lia.
Qed.

Lemma iter_shr_1_nonneg (p : positive) :
  forall mrs, 0 <= shr_m mrs -> 0 <= shr_m (SpecFloat.iter_pos shr_1 p mrs).
Proof.
  induction p as [p IH|p IH|]; intros mrs H; cbn.
  - apply IH, IH, shr_1_nonneg, H.
  - apply IH, IH, H.
  - apply shr_1_nonneg, H.
Qed.

Lemma shr_fexp_nonneg (p em m e : Z) (l : location) :
  0 <= m -> 0 <= shr_m (shr_fexp p em m e l).1.
Proof.
  intros H. unfold shr_fexp, shr.
  assert (0 <= shr_m (shr_record_of_loc m l)) as H0.
  { destruct l as [|[]]; cbn; exact H. }
  destruct (fexp p em (Zdigits2 m + e) - e); cbn; [exact H0 | | exact H0].
  now apply iter_shr_1_nonneg.
Qed.

Lemma binary_round_aux_not_nan (p em : Z) (s : bool) (m e : Z) (l : location) :
  0 <= m -> Np.isnan (binary_round_aux p em s m e l) = false.
Proof.
  intros H. unfold binary_round_aux.
  pose proof (shr_fexp_nonneg p em m e l H) as H1.
  destruct (shr_fexp p em m e l) as [mrs' e']. cbn in H1.
  assert (0 <= round_nearest_even (shr_m mrs') (loc_of_shr_record mrs')) as H2.
  { unfold round_nearest_even.
    destruct (loc_of_shr_record mrs') as [|[]]; try destruct (Z.even _); lia. }
  pose proof (shr_fexp_nonneg p em _ e' loc_Exact H2) as H3.
  destruct (shr_fexp p em _ e' loc_Exact) as [mrs'' e'']. cbn in H3.
  destruct (shr_m mrs''); [reflexivity | now destruct (e'' <=? em - p) | lia].
Qed.

Lemma binary_normalize_not_nan (p em m e : Z) (sz : bool) :
  Np.isnan (binary_normalize p em m e sz) = false.
Proof.
  unfold binary_normalize, binary_round.
  destruct m as [|m|m]; [reflexivity| |];
    destruct (shl_align _ _ _) as [mz ez]; now apply binary_round_aux_not_nan.
Qed.

(** Away from a finite target, only a missing wavelength has no distance. *)
Lemma distance_isnan (d : Np.dtype) (x : Z) (w : spec_float) :
  is_finite (Np.of_int d x) = true ->
  Np.isnan (distance d x w) = Np.isnan w.
Proof.
  unfold distance. intros Hx.
  destruct (Np.of_int d x) as [sx|sx| |sx mx ex]; try discriminate;
    destruct w as [sw|sw| |sw mw ew]; cbn; try reflexivity;
    try (now destruct sw, sx).
  match goal with
  | |- Np.isnan (SFabs ?v) = false =>
      assert (Np.isnan v = false) as Hv by apply binary_normalize_not_nan;
      now destruct v
  end.
Qed.

Lemma forallb_isnan_distance (d : Np.dtype) (x : Z) (w : list spec_float) :
  is_finite (Np.of_int d x) = true ->
  forallb Np.isnan (map (distance d x) w) = forallb Np.isnan w.
Proof.
  intros Hx. induction w as [|v w IH]; cbn; [reflexivity|].
  now rewrite IH, distance_isnan.
Qed.

Lemma nearest_band_outcome (d : Np.dtype) (w : list spec_float) (x : Z) :
  is_finite (Np.of_int d x) = true ->
  if forallb Np.isnan w
  then nearest_band d w x = Raise ValueError
  else exists i, nearest_band d w x = Ok i /\ (i < length w)%nat.
Proof.
  intros Hx. destruct (forallb Np.isnan w) eqn:E.
  - unfold nearest_band, nanargmin. now rewrite forallb_isnan_distance, E.
  - assert (exists i, nearest_band d w x = Ok i) as [i Hi].
    { unfold nearest_band, nanargmin. rewrite forallb_isnan_distance, E by exact Hx.
      destruct w as [|v w]; [discriminate|]. cbn. eauto. }
    exists i. split; [exact Hi|].
    unfold nearest_band in Hi. apply nanargmin_spec in Hi as (br & Hbr & _).
    apply lookup_lt_Some in Hbr. now rewrite !length_map in Hbr.
Qed.

(** X15. The three band indices for red, green and blue: when every
    wavelength is NaN, or there is none, the selection raises ValueError;
    otherwise it returns three indices, each within the wavelength axis,
    for float32 and for float64 wavelengths alike. *)
Theorem rgb_inds_outcome (d : Np.dtype) (wavelengths : list spec_float) :
  (forallb Np.isnan wavelengths = true ->
   rgb_inds d wavelengths = Raise ValueError) /\
  (forallb Np.isnan wavelengths = false ->
   exists r g b,
     rgb_inds d wavelengths = Ok [r; g; b] /\
     (r < length wavelengths)%nat /\
     (g < length wavelengths)%nat /\
     (b < length wavelengths)%nat).
Proof.
  assert (is_finite (Np.of_int d 650) = true) as F1 by now destruct d.
  assert (is_finite (Np.of_int d 560) = true) as F2 by now destruct d.
  assert (is_finite (Np.of_int d 470) = true) as F3 by now destruct d.
  pose proof (nearest_band_outcome d wavelengths 650 F1) as H1.
  pose proof (nearest_band_outcome d wavelengths 560 F2) as H2.
  pose proof (nearest_band_outcome d wavelengths 470 F3) as H3.
  unfold rgb_inds. cbn [mapM].
  split; intros E; rewrite E in H1, H2, H3.
  - rewrite H1. reflexivity.
  - destruct H1 as (r & -> & Hr). destruct H2 as (g & -> & Hg).
    destruct H3 as (b & -> & Hb). exists r, g, b. auto.
Qed.
